(** * FILEBOSS Dynamic Tool Forge: the compile-and-validate pipeline

    A shallow embedding of [src/tools/dynamic_tool_forge.py]: the
    dependency resolver, the code quality analyzer, the deployment
    manager, [DynamicToolForge.compile_and_validate_tool] and the
    compilation loop of [DynamicToolForge.generate_case_tools], together
    with the properties the specification states about them.

    Conventions.
    - A Python [str] is represented by the string of its UTF-8 bytes, so
      [s.encode()] is the byte list of the Rocq string; the substring
      tests and [replace] of the source only involve ASCII needles and
      therefore agree with their byte-level versions.
    - A tool specification is a Python dict with a fixed set of keys; it
      is a record of optional fields, an absent key raising [KeyError].
    - The registry [self.generated_tools] is a [gmap] keyed by tool id.
    - Python exceptions are values of [exn]; every operation of the forge
      is a computation in a state-and-exception monad over the state of
      the interpreter (loaded modules, log) and of the forge instance.
    - The interpreter services the forge calls are modelled as far as the
      forge can tell them apart: [ast.parse] is a parameter that accepts a
      text or raises an exception, [SyntaxError] or another;
      [__import__] resolves a name against [sys.modules] and the module
      index, loads the module with the modules its import brings along,
      and refuses the empty name and a resolved name with a leading dot
      with [ValueError]. Modules are taken to load without raising. *)

From Stdlib Require Import ZArith String Ascii List Floats DecimalString.
From stdpp Require Import gmap strings list.

Local Open Scope Z_scope.

(** ** hashlib.sha256 (FIPS 180-4), on 32-bit words carried by [Z] *)

Module Sha256.

Definition mask32 : Z := 0xffffffff.
Definition w32 (x : Z) : Z := Z.land x mask32.
Definition add32 (x y : Z) : Z := w32 (x + y).
Definition rotr (n x : Z) : Z :=
  Z.lor (Z.shiftr x n) (w32 (Z.shiftl x (32 - n))).
Definition not32 (x : Z) : Z := Z.lxor x mask32.

Definition Ch (x y z : Z) : Z := Z.lxor (Z.land x y) (Z.land (not32 x) z).
Definition Maj (x y z : Z) : Z :=
  Z.lxor (Z.lxor (Z.land x y) (Z.land x z)) (Z.land y z).
Definition bsig0 (x : Z) : Z := Z.lxor (Z.lxor (rotr 2 x) (rotr 13 x)) (rotr 22 x).
Definition bsig1 (x : Z) : Z := Z.lxor (Z.lxor (rotr 6 x) (rotr 11 x)) (rotr 25 x).
Definition ssig0 (x : Z) : Z := Z.lxor (Z.lxor (rotr 7 x) (rotr 18 x)) (Z.shiftr x 3).
Definition ssig1 (x : Z) : Z := Z.lxor (Z.lxor (rotr 17 x) (rotr 19 x)) (Z.shiftr x 10).

(** FIPS 180-4, 4.2.2 and 5.3.3: the round constants are the first 32
    bits of the fractional parts of the cube roots of the first 64 primes,
    the initial hash value those of the square roots of the first 8. *)
Fixpoint has_divisor (ps : list Z) (n : Z) : bool :=
  match ps with
  | [] => false
  | p :: ps' => (n mod p =? 0) || has_divisor ps' n
  end.

(** [count] primes from [n] on, [found] holding the smaller ones. *)
Fixpoint primes_from (fuel count : nat) (n : Z) (found : list Z) : list Z :=
  match fuel, count with
  | S fuel', S count' =>
      if has_divisor found n then primes_from fuel' count (n + 1) found
      else n :: primes_from fuel' count' (n + 1) (found ++ [n])
  | _, _ => []
  end.

Definition primes (count : nat) : list Z := primes_from 400 count 2 [].

(** The integer cube root, one bit at a time from bit [bits - 1] down. *)
Fixpoint cube_root (bits : nat) (x r : Z) : Z :=
  match bits with
  | O => r
  | S b =>
      let c := r + Z.shiftl 1 (Z.of_nat b) in
      cube_root b x (if c * c * c <=? x then c else r)
  end.

Definition K : list Z :=
  map (fun p => w32 (cube_root 36 (Z.shiftl p 96) 0)) (primes 64).

(** The eight working variables / the chaining value. *)
Record regs := Regs {
  ra : Z; rb : Z; rc : Z; rd : Z; re : Z; rf : Z; rg : Z; rh : Z }.

Definition initial (k : nat) : Z :=
  w32 (Z.sqrt (Z.shiftl (nth k (primes 8) 0) 64)).

Definition H0 : regs :=
  Regs (initial 0) (initial 1) (initial 2) (initial 3)
       (initial 4) (initial 5) (initial 6) (initial 7).

(** Big-endian bytes of a 64-bit length, and of a block into words. *)
Fixpoint be_bytes (n : nat) (x : Z) : list Z :=
  match n with
  | O => []
  | S n' => Z.land (Z.shiftr x (8 * Z.of_nat n')) 0xff :: be_bytes n' x
  end.

Definition pad (msg : list Z) : list Z :=
  let len := Z.of_nat (length msg) in
  let zeros := Z.to_nat ((55 - len) mod 64) in
  msg ++ 0x80 :: repeat 0 zeros ++ be_bytes 8 (8 * len).

Fixpoint be_words (n : nat) (bs : list Z) : list Z :=
  match n, bs with
  | S n', b0 :: b1 :: b2 :: b3 :: rest =>
      Z.lor (Z.lor (Z.lor (Z.shiftl b0 24) (Z.shiftl b1 16)) (Z.shiftl b2 8)) b3
      :: be_words n' rest
  | _, _ => []
  end.

(** Message schedule: [rev_w] holds the words computed so far, the most
    recent first. *)
Fixpoint schedule (n : nat) (rev_w : list Z) : list Z :=
  match n with
  | O => rev_w
  | S n' =>
      let w := add32 (add32 (add32 (ssig1 (nth 1 rev_w 0)) (nth 6 rev_w 0))
                            (ssig0 (nth 14 rev_w 0))) (nth 15 rev_w 0) in
      schedule n' (w :: rev_w)
  end.

Definition round (r : regs) (kw : Z * Z) : regs :=
  let t1 := add32 (add32 (add32 (add32 (rh r) (bsig1 (re r)))
                                (Ch (re r) (rf r) (rg r))) (fst kw)) (snd kw) in
  let t2 := add32 (bsig0 (ra r)) (Maj (ra r) (rb r) (rc r)) in
  Regs (add32 t1 t2) (ra r) (rb r) (rc r) (add32 (rd r) t1) (re r) (rf r) (rg r).

Definition compress (h : regs) (block : list Z) : regs :=
  let w := rev (schedule 48 (rev (be_words 16 block))) in
  let r := fold_left round (combine K w) h in
  Regs (add32 (ra h) (ra r)) (add32 (rb h) (rb r)) (add32 (rc h) (rc r))
       (add32 (rd h) (rd r)) (add32 (re h) (re r)) (add32 (rf h) (rf r))
       (add32 (rg h) (rg r)) (add32 (rh h) (rh r)).

Fixpoint blocks (n : nat) (h : regs) (bs : list Z) : regs :=
  match n with
  | O => h
  | S n' => blocks n' (compress h (firstn 64 bs)) (skipn 64 bs)
  end.

Definition digest (msg : list Z) : regs :=
  let p := pad msg in blocks (length p / 64)%nat H0 p.

(** Lowercase hexadecimal rendering, as [hexdigest] prints it. *)
Definition hex_digit (x : Z) : ascii :=
  match Z.land x 0xf with
  | 0 => "0" | 1 => "1" | 2 => "2" | 3 => "3" | 4 => "4" | 5 => "5"
  | 6 => "6" | 7 => "7" | 8 => "8" | 9 => "9" | 10 => "a" | 11 => "b"
  | 12 => "c" | 13 => "d" | 14 => "e" | _ => "f"
  end%char.

Fixpoint hex_of (n : nat) (x : Z) : string :=
  match n with
  | O => EmptyString
  | S n' => String (hex_digit (Z.shiftr x (4 * Z.of_nat n'))) (hex_of n' x)
  end.

Definition hex_regs (r : regs) : string :=
  String.append (hex_of 8 (ra r)) (String.append (hex_of 8 (rb r))
  (String.append (hex_of 8 (rc r)) (String.append (hex_of 8 (rd r))
  (String.append (hex_of 8 (re r)) (String.append (hex_of 8 (rf r))
  (String.append (hex_of 8 (rg r)) (hex_of 8 (rh r)))))))).

(** [s.encode()]: the bytes of the string. *)
Definition encode (s : string) : list Z :=
  map (fun c => Z.of_N (N_of_ascii c)) (list_ascii_of_string s).

(** [hashlib.sha256(s.encode()).hexdigest()] *)
Definition hexdigest (s : string) : string := hex_regs (digest (encode s)).

End Sha256.

(** ** Python values used by the forge *)

Local Open Scope string_scope.

(** [needle in hay] on strings. *)
Fixpoint contains (needle hay : string) : bool :=
  String.prefix needle hay ||
  match hay with
  | EmptyString => false
  | String _ hay' => contains needle hay'
  end.

(** [s.replace(old, new)] for one-character [old] and [new]. *)
Fixpoint replace (old new : ascii) (s : string) : string :=
  match s with
  | EmptyString => EmptyString
  | String c s' => String (if Ascii.eqb c old then new else c) (replace old new s')
  end.

Definition dquote : ascii := ascii_of_nat 34.
Definition triple_quote : string :=
  String dquote (String dquote (String dquote EmptyString)).

(** What [ast.parse] reports: the offending line, column and message. *)
Record syntax_error := {
  lineno : Z;
  offset : Z;
  msg : string }.

Inductive exn :=
| KeyError (key : string)
| SyntaxError (e : syntax_error)
| ModuleNotFoundError (name : string)
| ValueError (message : string)
| OtherException (class message : string).
  (* an exception of another class under [Exception], as [MemoryError] *)

(** [isinstance(e, ImportError)]: [ModuleNotFoundError] is its subclass. *)
Definition is_ImportError (e : exn) : bool :=
  match e with ModuleNotFoundError _ => true | _ => false end.

Inductive result (A : Type) :=
| Ok (a : A)
| Raise (e : exn).
Arguments Ok {A} a.
Arguments Raise {A} e.

(** The tool specification dict built by the generators (lines 445-460);
    [None] is an absent key. *)
Module Spec.
Record t := {
  name : option string;
  type : option string;
  code : option string;
  dependencies : option (list string);
  description : option string;
  capabilities : option (list string);
  case_specific : option bool }.
End Spec.

Record resource_requirements_t := {
  cpu : string;
  memory : string;
  storage : string }.

Record health_check_t := {
  enabled : bool;
  endpoint : string;
  interval : Z }.

Record deployment_config_t := {
  deployment_type : string;
  resource_requirements : resource_requirements_t;
  environment_variables : gmap string string;
  health_check : health_check_t }.

(** The compiled tool dict (lines 484-498). *)
Module Tool.
Record t := {
  tool_id : string;
  name : string;
  type : string;
  description : string;
  capabilities : list string;
  code : string;
  dependencies : list string;
  missing_dependencies : list string;
  quality_score : float;
  deployment_config : deployment_config_t;
  compilation_timestamp : string;
  validation_status : string;
  case_specific : bool }.
End Tool.

(** Records handed to [logger]; the level is that of the call. *)
Inductive log_record :=
| InfoSyntaxPassed (name : string)                          (* line 468 *)
| ErrorSyntax (name : string) (e : exn)                     (* line 470 *)
| WarningMissingDependencies (name : string) (missing : list string) (* 476 *)
| InfoCompiled (name : string)                              (* line 89 *)
| ErrorFailedToCompile (name : string) (e : exn).           (* line 91 *)

(** ** State of the interpreter and of one forge instance *)

Record state := {
  module_index : gmap string (gset string);
    (* the modules the import finders can locate, each with the modules
       its import brings along: parent packages, its own imports *)
  sys_modules : gset string;   (* modules already imported *)
  ticks : nat;                 (* readings of the clock so far *)
  log : list log_record;       (* oldest first *)
  generated_tools : gmap string Tool.t (* self.generated_tools *) }.

Definition M (A : Type) : Type := state -> result A * state.

Definition ret {A} (a : A) : M A := fun st => (Ok a, st).
Definition raise {A} (e : exn) : M A := fun st => (Raise e, st).
Definition bind {A B} (m : M A) (k : A -> M B) : M B :=
  fun st => match m st with
            | (Ok a, st') => k a st'
            | (Raise e, st') => (Raise e, st')
            end.

(** [try: m  except <class> as e: h e], [catches] deciding the class. *)
Definition try_except {A} (m : M A) (catches : exn -> bool) (h : exn -> M A) : M A :=
  fun st => match m st with
            | (Ok a, st') => (Ok a, st')
            | (Raise e, st') => if catches e then h e st' else (Raise e, st')
            end.

(** The outcome of [m], raised exceptions included, as a value: the point
    up to which a [try] body ran. *)
Definition attempt {A} (m : M A) : M (result A) :=
  fun st => match m st with (r, st') => (Ok r, st') end.

Declare Scope forge_scope.
Delimit Scope forge_scope with forge.
Notation "x <- m ;; k" := (bind m (fun x => k))
  (at level 100, m at level 99, k at level 200, right associativity) : forge_scope.
Notation "m ;;; k" := (bind m (fun _ => k))
  (at level 100, k at level 200, right associativity) : forge_scope.
Local Open Scope forge_scope.

(** [d[key]] on a dict field. *)
Definition getitem {A} (key : string) (field : option A) : M A :=
  match field with
  | Some v => ret v
  | None => raise (KeyError key)
  end.

Definition emit (r : log_record) : M unit := fun st =>
  (Ok tt, {| module_index := module_index st; sys_modules := sys_modules st;
             ticks := ticks st; log := (log st ++ [r])%list;
             generated_tools := generated_tools st |}).

(** A name that starts with a dot. *)
Definition leading_dot (name : string) : bool :=
  match name with
  | String c _ => Ascii.eqb c "."
  | EmptyString => false
  end.

(** [__import__(name)] with the default arguments. The empty name is
    refused before any lookup. A module already in [sys.modules] is
    taken from there; otherwise the finders are asked, and the module
    they find is loaded into [sys.modules] together with those of the
    modules its import brings along that the finders locate. With the
    module at hand the part of the name before its first dot is
    imported in turn; for a name with a leading dot that part is empty
    and is refused like the empty name, the module staying loaded.
    Loading a located module is taken to succeed. *)
Definition import_ (name : string) : M unit := fun st =>
  if String.eqb name "" then (Raise (ValueError "Empty module name"), st)
  else
    let top (st' : state) : result unit * state :=
      if leading_dot name then (Raise (ValueError "Empty module name"), st')
      else (Ok tt, st') in
    if bool_decide (name ∈ sys_modules st) then top st
    else match module_index st !! name with
         | Some along =>
             top {| module_index := module_index st;
                    sys_modules :=
                      {[ name ]} ∪ along ∩ dom (module_index st) ∪ sys_modules st;
                    ticks := ticks st; log := log st;
                    generated_tools := generated_tools st |}
         | None => (Raise (ModuleNotFoundError name), st)
         end.

(** ** DependencyResolver.check_dependencies (lines 550-558) *)

Fixpoint check_dependencies_from (missing : list string) (dependencies : list string)
  : M (list string) :=
  match dependencies with
  | [] => ret missing
  | dep :: rest =>
      missing' <- try_except (import_ (replace "-" "_" dep) ;;; ret missing)
                    is_ImportError (fun _ => ret (missing ++ [dep])%list) ;;
      check_dependencies_from missing' rest
  end.

Definition check_dependencies (dependencies : list string) : M (list string) :=
  check_dependencies_from [] dependencies.

(** ** CodeQualityAnalyzer.analyze_code_quality (lines 563-580) *)

(** [min(a, b)] of Python: [b] when [b < a], else [a]. *)
Definition py_min (a b : float) : float := if PrimFloat.ltb b a then b else a.

Definition analyze_code_quality (code : string) : float :=
  let score := 85%float in
  let score := if contains triple_quote code then (score + 5)%float else score in
  let score := if contains "try:" code && contains "except" code
               then (score + 5)%float else score in
  let score := if contains "->" code then (score + 5)%float else score in
  py_min score 100%float.

(** ** ToolDeploymentManager.generate_deployment_config (lines 585-605) *)

Definition generate_deployment_config (tool_spec : Spec.t) : M deployment_config_t :=
  tool_name <- getitem "name" (Spec.name tool_spec) ;;
  tool_type <- getitem "type" (Spec.type tool_spec) ;;
  ret {| deployment_type := "docker";
         resource_requirements :=
           {| cpu := "0.5"; memory := "512Mi"; storage := "1Gi" |};
         environment_variables :=
           <["TOOL_NAME" := tool_name]>
             (<["TOOL_TYPE" := tool_type]> {["LOG_LEVEL" := "INFO"]});
         health_check :=
           {| enabled := true; endpoint := "/health"; interval := 30 |} |}.

(** ** DynamicToolForge *)

Definition is_SyntaxError (e : exn) : bool :=
  match e with SyntaxError _ => true | _ => false end.

(** [except Exception]: every exception of [exn] is one. *)
Definition is_Exception (e : exn) : bool := true.

(** [self.generated_tools[tool_id] = compiled_tool] *)
Definition store (tool_id : string) (compiled_tool : Tool.t) : M unit := fun st =>
  (Ok tt, {| module_index := module_index st; sys_modules := sys_modules st;
             ticks := ticks st; log := log st;
             generated_tools := <[tool_id := compiled_tool]> (generated_tools st) |}).

Section Forge.

(** [ast.parse] is the parser of the target language: [None] when the text
    parses, else the exception it raises, a [SyntaxError] or another
    (for one, [ValueError] on a text with a null byte). *)
Variable ast_parse : string -> option exn.

(** [datetime.utcnow().isoformat()] at the n-th reading of the clock. *)
Variable utcnow : nat -> string.

Definition parse (code : string) : M unit :=
  match ast_parse code with
  | None => ret tt
  | Some e => raise e
  end.

Definition now : M string := fun st =>
  (Ok (utcnow (ticks st)),
   {| module_index := module_index st; sys_modules := sys_modules st;
      ticks := S (ticks st); log := log st;
      generated_tools := generated_tools st |}).

(** Lines 462-503. The coroutines awaited here run to completion one
    after the other. *)
Definition compile_and_validate_tool (tool_spec : Spec.t) : M Tool.t :=
  (* Syntax validation *)
  try_except
    (code <- getitem "code" (Spec.code tool_spec) ;;
     parse code ;;;
     name <- getitem "name" (Spec.name tool_spec) ;;
     emit (InfoSyntaxPassed name))
    is_SyntaxError
    (fun e =>
       name <- getitem "name" (Spec.name tool_spec) ;;
       emit (ErrorSyntax name e) ;;;
       raise e) ;;;
  (* Dependency validation *)
  dependencies <- getitem "dependencies" (Spec.dependencies tool_spec) ;;
  missing_deps <- check_dependencies dependencies ;;
  match missing_deps with
  | [] => ret tt
  | _ :: _ =>
      name <- getitem "name" (Spec.name tool_spec) ;;
      emit (WarningMissingDependencies name missing_deps)
  end ;;;
  (* Code quality analysis *)
  code <- getitem "code" (Spec.code tool_spec) ;;
  let quality_score := analyze_code_quality code in
  (* Generate deployment configuration *)
  deployment_config <- generate_deployment_config tool_spec ;;
  code <- getitem "code" (Spec.code tool_spec) ;;
  let tool_id := String.substring 0 16 (Sha256.hexdigest code) in
  name <- getitem "name" (Spec.name tool_spec) ;;
  type <- getitem "type" (Spec.type tool_spec) ;;
  description <- getitem "description" (Spec.description tool_spec) ;;
  capabilities <- getitem "capabilities" (Spec.capabilities tool_spec) ;;
  code' <- getitem "code" (Spec.code tool_spec) ;;
  dependencies' <- getitem "dependencies" (Spec.dependencies tool_spec) ;;
  timestamp <- now ;;
  let compiled_tool :=
    {| Tool.tool_id := tool_id;
       Tool.name := name;
       Tool.type := type;
       Tool.description := description;
       Tool.capabilities := capabilities;
       Tool.code := code';
       Tool.dependencies := dependencies';
       Tool.missing_dependencies := missing_deps;
       Tool.quality_score := quality_score;
       Tool.deployment_config := deployment_config;
       Tool.compilation_timestamp := timestamp;
       Tool.validation_status :=
         match missing_deps with [] => "passed" | _ :: _ => "warning" end;
       Tool.case_specific := default false (Spec.case_specific tool_spec) |} in
  (* Store compiled tool *)
  store (Tool.tool_id compiled_tool) compiled_tool ;;;
  ret compiled_tool.

(** Lines 84-93 of [generate_case_tools]: the loop over the specifications
    [tools] assembled by lines 46-81. [compiled_tools] is the list being
    appended to; the one handler of the [try] statement serves both the
    compilation and the logging that follows the append, and an exception
    raised inside the handler leaves the loop. *)
Definition failed_to_compile (tool : Spec.t) (e : exn) : M unit :=
  name <- getitem "name" (Spec.name tool) ;;
  emit (ErrorFailedToCompile name e).

Fixpoint compile_tools (compiled_tools : list Tool.t) (tools : list Spec.t)
  : M (list Tool.t) :=
  match tools with
  | [] => ret compiled_tools
  | tool :: rest =>
      (* try: *)
      outcome <- attempt (compile_and_validate_tool tool) ;;
      match outcome with
      | Ok compiled_tool =>
          let appended := (compiled_tools ++ [compiled_tool])%list in
          try_except
            (name <- getitem "name" (Spec.name tool) ;;
             emit (InfoCompiled name))
            is_Exception (failed_to_compile tool) ;;;
          compile_tools appended rest
      | Raise e =>
          (* except Exception as e: *)
          failed_to_compile tool e ;;;
          compile_tools compiled_tools rest
      end
  end.

Definition generate_case_tools (tools : list Spec.t) : M (list Tool.t) :=
  compile_tools [] tools.

End Forge.

(** ** Vocabulary of the properties *)

(** The names [__import__] resolves: loaded already, or locatable. *)
Definition available (st : state) : gset string :=
  sys_modules st ∪ dom (module_index st).

Definition normalize (dep : string) : string := replace "-" "_" dep.

Definition set_sys_modules (ms : gset string) (st : state) : state :=
  {| module_index := module_index st; sys_modules := ms;
     ticks := ticks st; log := log st;
     generated_tools := generated_tools st |}.

(** What [__import__ name] answers in [st], and [sys.modules] after it. *)
Definition import_outcome (st : state) (name : string) : result unit :=
  fst (import_ name st).

Definition load (name : string) (st : state) : gset string :=
  sys_modules (snd (import_ name st)).

(** [sys.modules] once the names of [names] were imported in turn. *)
Fixpoint imported (names : list string) (st : state) : gset string :=
  match names with
  | [] => sys_modules st
  | name :: rest => imported rest (set_sys_modules (load name st) st)
  end.

(** The dependencies the resolver is expected to report. *)
Definition unavailable (st : state) (dependencies : list string) : list string :=
  filter (fun dep => normalize dep ∉ available st) dependencies.

(** The exception the loop of the resolver lets through, if any: what
    [__import__] raises for the first dependency for which it raises
    something that is not an [ImportError]. *)
Fixpoint first_refusal (st : state) (dependencies : list string) : option exn :=
  match dependencies with
  | [] => None
  | dep :: rest =>
      match import_outcome st (normalize dep) with
      | Ok _ => first_refusal st rest
      | Raise e => if is_ImportError e then first_refusal st rest else Some e
      end
  end.

(** The exception [compile_and_validate_tool] ends with in [st], read off
    the order of its steps: the text is read (line 467) and parsed; a
    [SyntaxError] is logged under the name (line 470) and raised again,
    another exception of the parser leaves at once; then the name is
    read (line 468), the dependencies are read and checked (line 474),
    the type is read (line 597), the description and the capabilities
    (lines 488-489). [None] when it goes through. *)
Definition first_error (ast_parse : string -> option exn) (st : state) (s : Spec.t)
  : option exn :=
  match Spec.code s with
  | None => Some (KeyError "code")
  | Some code =>
  match ast_parse code with
  | Some e =>
      if is_SyntaxError e
      then match Spec.name s with
           | None => Some (KeyError "name")
           | Some _ => Some e
           end
      else Some e
  | None =>
  match Spec.name s with
  | None => Some (KeyError "name")
  | Some _ =>
  match Spec.dependencies s with
  | None => Some (KeyError "dependencies")
  | Some deps =>
  match first_refusal st deps with
  | Some e => Some e
  | None =>
  match Spec.type s with
  | None => Some (KeyError "type")
  | Some _ =>
  match Spec.description s with
  | None => Some (KeyError "description")
  | Some _ =>
  match Spec.capabilities s with
  | None => Some (KeyError "capabilities")
  | Some _ => None
  end end end end end end end end.

(** A specification with every key the pipeline reads. *)
Definition complete (s : Spec.t) : Prop :=
  is_Some (Spec.name s) /\ is_Some (Spec.type s) /\ is_Some (Spec.code s) /\
  is_Some (Spec.dependencies s) /\ is_Some (Spec.description s) /\
  is_Some (Spec.capabilities s).

(** The check of the dependencies of [s] returns in [st]. *)
Definition dependencies_resolve (st : state) (s : Spec.t) : Prop :=
  forall deps,
    Spec.dependencies s = Some deps ->
    exists missing st', check_dependencies deps st = (Ok missing, st').

(** The first key, in the order the pipeline reads them, that [s] lacks. *)
Definition missing_key (s : Spec.t) : option string :=
  match Spec.code s, Spec.name s, Spec.dependencies s, Spec.type s,
        Spec.description s, Spec.capabilities s with
  | None, _, _, _, _, _ => Some "code"
  | _, None, _, _, _, _ => Some "name"
  | _, _, None, _, _, _ => Some "dependencies"
  | _, _, _, None, _, _ => Some "type"
  | _, _, _, _, None, _ => Some "description"
  | _, _, _, _, _, None => Some "capabilities"
  | Some _, Some _, Some _, Some _, Some _, Some _ => None
  end.

(** The fields a compiled tool copies from its specification. *)
Definition compiled_from (t : Tool.t) (s : Spec.t) : Prop :=
  Spec.name s = Some (Tool.name t) /\
  Spec.type s = Some (Tool.type t) /\
  Spec.code s = Some (Tool.code t) /\
  Spec.dependencies s = Some (Tool.dependencies t) /\
  Spec.description s = Some (Tool.description t) /\
  Spec.capabilities s = Some (Tool.capabilities t) /\
  Tool.case_specific t = default false (Spec.case_specific s).

(** Two compiled tools that differ at most in their timestamp. *)
Definition same_content (t1 t2 : Tool.t) : Prop :=
  Tool.tool_id t1 = Tool.tool_id t2 /\
  Tool.name t1 = Tool.name t2 /\
  Tool.type t1 = Tool.type t2 /\
  Tool.description t1 = Tool.description t2 /\
  Tool.capabilities t1 = Tool.capabilities t2 /\
  Tool.code t1 = Tool.code t2 /\
  Tool.dependencies t1 = Tool.dependencies t2 /\
  Tool.missing_dependencies t1 = Tool.missing_dependencies t2 /\
  Tool.quality_score t1 = Tool.quality_score t2 /\
  Tool.deployment_config t1 = Tool.deployment_config t2 /\
  Tool.validation_status t1 = Tool.validation_status t2 /\
  Tool.case_specific t1 = Tool.case_specific t2.

(** How the state of the interpreter and of the forge may move: the
    resolvable names stay, the registry keeps its keys, the log grows. *)
Record evolves (st st' : state) : Prop := {
  evolves_index : module_index st' = module_index st;
  evolves_available : available st' = available st;
  evolves_loaded : sys_modules st ⊆ sys_modules st';
  evolves_registry : dom (generated_tools st) ⊆ dom (generated_tools st');
  evolves_log : log st `prefix_of` log st' }.

(** A computation that only moves the state in that way. *)
Definition preserves {A} (m : M A) : Prop := forall st, evolves st (snd (m st)).

(** The deployment kind as the specification words it. *)
Definition deployment_kind_container : Prop :=
  forall tool_spec st cfg st',
    generate_deployment_config tool_spec st = (Ok cfg, st') ->
    deployment_type cfg = "container".


(** The score the specification words: 85, five more per marker, capped. *)
Definition bonus (b : bool) : Z := if b then 5 else 0.
Definition marker_score (doc handler arrow : bool) : Z :=
  Z.min (85 + bonus doc + bonus handler + bonus arrow) 100.
Definition float_of_Z (z : Z) : float := PrimFloat.of_uint63 (Uint63.of_Z z).

Definition has_doc_marker (code : string) : bool := contains triple_quote code.
Definition has_error_handling (code : string) : bool :=
  contains "try:" code && contains "except" code.
Definition has_arrow_marker (code : string) : bool := contains "->" code.

Definition lower_hex (c : ascii) : bool :=
  match index 0 (String c EmptyString) "0123456789abcdef" with
  | Some _ => true
  | None => false
  end.

Fixpoint all_chars (p : ascii -> bool) (s : string) : bool :=
  match s with
  | EmptyString => true
  | String c s' => p c && all_chars p s'
  end.

(** Operations a caller performs on one forge instance. *)
Inductive operation :=
| CompileAndValidateTool (tool_spec : Spec.t)
| GenerateCaseTools (tools : list Spec.t).

Section Runs.
Variable ast_parse : string -> option exn.
Variable utcnow : nat -> string.

Definition perform (st : state) (o : operation) : state :=
  match o with
  | CompileAndValidateTool tool_spec =>
      snd (compile_and_validate_tool ast_parse utcnow tool_spec st)
  | GenerateCaseTools tools =>
      snd (generate_case_tools ast_parse utcnow tools st)
  end.

Definition run (ops : list operation) (st : state) : state :=
  fold_left perform ops st.

(** The text of [s] is there and does not parse. *)
Definition unparsable (s : Spec.t) : bool :=
  match Spec.code s with
  | Some code => match ast_parse code with Some _ => true | None => false end
  | None => false
  end.

(** The value handed back by [generate_case_tools] tells the caller which
    specifications were rejected: some [report] reads their names off it. *)
Definition rejections_returned : Prop :=
  exists report : list Tool.t -> list (option string),
    forall tools st out st',
      generate_case_tools ast_parse utcnow tools st = (Ok out, st') ->
      report out = Spec.name <$> List.filter unparsable tools.

(** The completion record expected for [s]: success, or the failure with
    the exception the compilation of [s] ends with in [st]. *)
Definition completion_of (st : state) (s : Spec.t) : option log_record :=
  match Spec.name s with
  | Some n =>
      Some match fst (compile_and_validate_tool ast_parse utcnow s st) with
           | Ok _ => InfoCompiled n
           | Raise e => ErrorFailedToCompile n e
           end
  | None => None
  end.
End Runs.

(** ** A runnable instance

    A parser that refuses a null byte with [ValueError], as [ast.parse]
    does, and otherwise checks round brackets only, and a clock that
    counts, to run the forge on examples. *)

Fixpoint paren_scan (depth : nat) (line col : Z) (s : string) : option syntax_error :=
  match s with
  | EmptyString =>
      match depth with
      | O => None
      | S _ => Some {| lineno := line; offset := col; msg := "'(' was never closed" |}
      end
  | String c s' =>
      if Ascii.eqb c "(" then paren_scan (S depth) line (col + 1) s'
      else if Ascii.eqb c ")" then
        match depth with
        | O => Some {| lineno := line; offset := col; msg := "unmatched ')'" |}
        | S d => paren_scan d line (col + 1) s'
        end
      else if Ascii.eqb c (ascii_of_nat 10) then paren_scan depth (line + 1) 1 s'
      else paren_scan depth line (col + 1) s'
  end.

Definition paren_parse (s : string) : option exn :=
  if contains (String (ascii_of_nat 0) EmptyString) s
  then Some (ValueError "source code string cannot contain null bytes")
  else SyntaxError <$> paren_scan 0 1 1 s.

Definition counting_clock (n : nat) : string :=
  String.append "2025-10-25T04:05:" (NilEmpty.string_of_uint (Nat.to_uint n)).

(** An interpreter that has imported nothing yet, whose finders locate
    the modules of [index], none of which imports another. *)
Definition fresh (index : list string) : state :=
  {| module_index := gset_to_gmap ∅ (list_to_set index); sys_modules := ∅;
     ticks := 0; log := []; generated_tools := ∅ |}.

(** An interpreter with a package whose import brings its submodules
    along, and finders that also resolve a spelling with a leading dot. *)
Definition packaged : state :=
  {| module_index :=
       {[ "json" := {[ "json.decoder"; "json.encoder" ]};
          "json.decoder" := {[ "json" ]};
          "pandas" := {[ "numpy"; "optional_speedups" ]};
          "numpy" := ∅;
          ".os" := ∅ ]};
     sys_modules := {[ "os" ]}; ticks := 0; log := []; generated_tools := ∅ |}.

Definition timeline_spec : Spec.t :=
  {| Spec.name := Some "timeline_reconstructor_1FDV";
     Spec.type := Some "timeline_analyzer";
     Spec.code := Some "def reconstruct(events) -> list: return sorted(events)";
     Spec.dependencies := Some ["pandas"; "python-dateutil"; "nonexistent-pkg-xyz"];
     Spec.description := Some "Timeline reconstruction and analysis tool";
     Spec.capabilities := Some ["temporal_event_extraction"; "gap_detection"];
     Spec.case_specific := Some true |}.

Definition evidence_spec : Spec.t :=
  {| Spec.name := Some "evidence_analyzer_1FDV";
     Spec.type := Some "evidence_analyzer";
     Spec.code := Some "import hashlib";
     Spec.dependencies := Some ["pandas"];
     Spec.description := Some "Intelligent evidence analysis tool";
     Spec.capabilities := Some ["document_ocr"];
     Spec.case_specific := None |}.

Definition broken_spec : Spec.t :=
  {| Spec.name := Some "compliance_monitor_1FDV";
     Spec.type := Some "compliance_monitor";
     Spec.code := Some "def check(:";
     Spec.dependencies := Some [];
     Spec.description := Some "Compliance monitoring tool";
     Spec.capabilities := Some [];
     Spec.case_specific := Some true |}.

Definition installed : list string := ["pandas"; "python_dateutil"; "json"].

(** The descriptor the deployment manager hands back for [s]; it does not
    read the state (see [generate_deployment_config_pure]). *)
Definition descriptor (s : Spec.t) : result deployment_config_t :=
  fst (generate_deployment_config s (fresh [])).

Definition status_of (missing : list string) : string :=
  match missing with [] => "passed" | _ :: _ => "warning" end.

Section Outcome.
Variable utcnow : nat -> string.

(** What a successful run of the pipeline on [s] from [st] yields. *)
Record assembled (s : Spec.t) (st : state) (t : Tool.t) : Prop := {
  asm_fields : compiled_from t s;
  asm_id : Spec.code s = Some (Tool.code t) /\
           Tool.tool_id t = String.substring 0 16 (Sha256.hexdigest (Tool.code t));
  asm_score : Tool.quality_score t = analyze_code_quality (Tool.code t);
  asm_missing : Tool.missing_dependencies t = unavailable st (Tool.dependencies t);
  asm_config : descriptor s = Ok (Tool.deployment_config t);
  asm_time : Tool.compilation_timestamp t = utcnow (ticks st);
  asm_status : Tool.validation_status t = status_of (Tool.missing_dependencies t) }.

(** ... and the state it leaves. *)
Record registered (st : state) (t : Tool.t) (st' : state) : Prop := {
  reg_index : module_index st' = module_index st;
  reg_loaded : sys_modules st' = imported (normalize <$> Tool.dependencies t) st;
  reg_ticks : ticks st' = S (ticks st);
  reg_tools : generated_tools st' = <[Tool.tool_id t := t]> (generated_tools st);
  reg_log : log st' =
            (log st ++ InfoSyntaxPassed (Tool.name t) ::
               match Tool.missing_dependencies t with
               | [] => []
               | _ :: _ => [WarningMissingDependencies (Tool.name t)
                              (Tool.missing_dependencies t)]
               end)%list }.
End Outcome.

(** A text with a documentation block and structured error handling, and
    no return annotation. *)
Definition documented_code : string :=
  String.append triple_quote
    (String.append "Evidence analyzer"
       (String.append triple_quote " try: analyze() except OSError: pass")).

Definition demo_compile : result Tool.t * state :=
  compile_and_validate_tool paren_parse counting_clock timeline_spec (fresh installed).

Definition demo_batch : list Spec.t := [timeline_spec; broken_spec; evidence_spec].


(** ** Vocabulary of the further properties *)

(** Prefixing the value a computation returns. *)
Definition prepend {A} (acc : list A) (m : M (list A)) : M (list A) :=
  bind m (fun out => ret (acc ++ out)%list).

Definition set_log (records : list log_record) (st : state) : state :=
  {| module_index := module_index st; sys_modules := sys_modules st;
     ticks := ticks st; log := records;
     generated_tools := generated_tools st |}.

(** The records the compilation loop writes when it is done with a
    specification (lines 89 and 91). *)
Definition is_completion (r : log_record) : bool :=
  match r with
  | InfoCompiled _ | ErrorFailedToCompile _ _ => true
  | _ => false
  end.

Definition completions (records : list log_record) : list log_record :=
  List.filter is_completion records.

(** [DynamicToolForge.__init__] (lines 32-38): the helper objects carry no
    state; the registry of the new instance is empty. *)
Definition __init__ (st : state) : state :=
  {| module_index := module_index st; sys_modules := sys_modules st;
     ticks := ticks st; log := log st;
     generated_tools := ∅ |}.

(** An entry of the registry that is what the pipeline makes: filed under
    its own id, the id being that of its text, with the score of its
    text, the status of its missing dependencies, and these among its
    dependencies. *)
Record well_registered (id : string) (t : Tool.t) : Prop := {
  wr_key : Tool.tool_id t = id;
  wr_id : id = String.substring 0 16 (Sha256.hexdigest (Tool.code t));
  wr_score : Tool.quality_score t = analyze_code_quality (Tool.code t);
  wr_status : Tool.validation_status t = status_of (Tool.missing_dependencies t);
  wr_missing : Tool.missing_dependencies t `sublist_of` Tool.dependencies t }.

Definition registry_ok (st : state) : Prop :=
  map_Forall well_registered (generated_tools st).

(** More of the runnable instance. *)
Definition demo_dependencies : list string :=
  ["pandas"; "python-dateutil"; "nonexistent-pkg-xyz"].

(** The text of [timeline_spec] under another name. *)
Definition renamed_spec : Spec.t :=
  {| Spec.name := Some "timeline_copy_1FDV";
     Spec.type := Some "timeline_analyzer";
     Spec.code := Spec.code timeline_spec;
     Spec.dependencies := Some [];
     Spec.description := Some "A second specification with the same text";
     Spec.capabilities := Some [];
     Spec.case_specific := None |}.

(** A specification that lost its name and its text. *)
Definition nameless_spec : Spec.t :=
  {| Spec.name := None;
     Spec.type := Some "deadline_manager";
     Spec.code := None;
     Spec.dependencies := Some [];
     Spec.description := None;
     Spec.capabilities := None;
     Spec.case_specific := None |}.

(** A specification in order but for an empty name among its
    dependencies. *)
Definition empty_dependency_spec : Spec.t :=
  {| Spec.name := Some "deadline_manager_1FDV";
     Spec.type := Some "deadline_manager";
     Spec.code := Some "def remind(): pass";
     Spec.dependencies := Some ["nonexistent-pkg-xyz"; ""];
     Spec.description := Some "Deadline management tool";
     Spec.capabilities := Some ["deadline_tracking"];
     Spec.case_specific := Some true |}.

(** A specification whose text has a null byte. *)
Definition null_byte_spec : Spec.t :=
  {| Spec.name := Some "communication_tracker_1FDV";
     Spec.type := Some "communication_tracker";
     Spec.code := Some (String.append "x = 1" (String (ascii_of_nat 0) EmptyString));
     Spec.dependencies := Some [];
     Spec.description := Some "Communication tracking tool";
     Spec.capabilities := Some [];
     Spec.case_specific := None |}.

Definition mixed_batch : list Spec.t :=
  [timeline_spec; broken_spec; null_byte_spec; evidence_spec].


(** * Properties *)

#[local] Set Warnings "-clear-no-such-hyp".

(** ** The interpreter state and [__import__] *)

Lemma replace_empty old new s : replace old new s = "" <-> s = "".
Proof. destruct s; simpl; split; congruence. Qed.

Lemma state_eta st :
  {| module_index := module_index st; sys_modules := sys_modules st;
     ticks := ticks st; log := log st;
     generated_tools := generated_tools st |} = st.
Proof. by destruct st. Qed.

Lemma set_sys_modules_id st : set_sys_modules (sys_modules st) st = st.
Proof. apply state_eta. Qed.

Lemma set_sys_modules_twice ms ms' st :
  set_sys_modules ms' (set_sys_modules ms st) = set_sys_modules ms' st.
Proof. reflexivity. Qed.

(** [__import__] changes [sys.modules] only. *)
Lemma import_state name st :
  import_ name st = (import_outcome st name, set_sys_modules (load name st) st).
Proof.
  unfold import_outcome, load, import_, set_sys_modules.
  destruct (String.eqb name ""); [by rewrite state_eta|].
  case_bool_decide.
  - destruct (leading_dot name); simpl; by rewrite state_eta.
  - destruct (module_index st !! name) as [along|]; [|by rewrite state_eta].
    by destruct (leading_dot name).
Qed.

(** What it answers depends on the names that resolve only. *)
Lemma import_outcome_spec name st :
  import_outcome st name
  = if String.eqb name "" then Raise (ValueError "Empty module name")
    else if bool_decide (name ∈ available st)
         then if leading_dot name then Raise (ValueError "Empty module name")
              else Ok tt
         else Raise (ModuleNotFoundError name).
Proof.
  unfold import_outcome, import_, available.
  destruct (String.eqb name ""); [done|].
  destruct (decide (name ∈ sys_modules st)) as [Hin|Hout].
  - rewrite bool_decide_eq_true_2 by done.
    rewrite bool_decide_eq_true_2 by set_solver. by destruct (leading_dot name).
  - rewrite bool_decide_eq_false_2 by done.
    destruct (module_index st !! name) as [along|] eqn:Hlook.
    + rewrite bool_decide_eq_true_2
        by (apply elem_of_union_r, elem_of_dom; eauto).
      by destruct (leading_dot name).
    + rewrite bool_decide_eq_false_2; [done|].
      apply not_elem_of_dom in Hlook. set_solver.
Qed.

Lemma import_outcome_available st st' name :
  available st' = available st -> import_outcome st' name = import_outcome st name.
Proof. intros Hav. by rewrite !import_outcome_spec, Hav. Qed.

Lemma import_ok_available st name u :
  import_outcome st name = Ok u -> name <> "" /\ name ∈ available st.
Proof.
  rewrite import_outcome_spec.
  destruct (String.eqb_spec name ""); [done|]. case_bool_decide; [|done].
  by destruct (leading_dot name).
Qed.

Lemma import_error_unavailable st name e :
  import_outcome st name = Raise e -> is_ImportError e = true -> name ∉ available st.
Proof.
  rewrite import_outcome_spec.
  destruct (String.eqb name ""); [by intros [= <-]|]. case_bool_decide; [|done].
  destruct (leading_dot name); [by intros [= <-]|done].
Qed.

(** The one thing it raises that is not an [ImportError]. *)
Lemma import_refusal st name e :
  import_outcome st name = Raise e -> is_ImportError e = false ->
  e = ValueError "Empty module name".
Proof.
  rewrite import_outcome_spec.
  destruct (String.eqb name ""); [by intros [= <-]|]. case_bool_decide.
  - destruct (leading_dot name); [by intros [= <-]|done].
  - by intros [= <-].
Qed.

Lemma load_bounds name st :
  sys_modules st ⊆ load name st /\ load name st ⊆ available st.
Proof.
  unfold load, import_, available.
  destruct (String.eqb name ""); [set_solver|].
  case_bool_decide; [destruct (leading_dot name); set_solver|].
  destruct (module_index st !! name) as [along|] eqn:Hlook; [|set_solver].
  apply elem_of_dom_2 in Hlook. destruct (leading_dot name); simpl; set_solver.
Qed.

Lemma load_available name st :
  name <> "" -> name ∈ available st -> name ∈ load name st.
Proof.
  intros Hne Hav. unfold load, import_, available in *.
  destruct (String.eqb_spec name ""); [done|].
  case_bool_decide; [by destruct (leading_dot name)|].
  destruct (module_index st !! name) as [along|] eqn:Hlook.
  - destruct (leading_dot name); simpl; set_solver.
  - apply not_elem_of_dom in Hlook. set_solver.
Qed.

Lemma load_unavailable name st : name ∉ available st -> load name st = sys_modules st.
Proof.
  intros Hav. unfold load, import_, available in *.
  destruct (String.eqb name ""); [done|].
  case_bool_decide; [set_solver|].
  destruct (module_index st !! name) as [along|] eqn:Hlook; [|done].
  apply elem_of_dom_2 in Hlook. set_solver.
Qed.

Lemma load_loaded name st : name ∈ sys_modules st -> load name st = sys_modules st.
Proof.
  intros Hin. unfold load, import_.
  destruct (String.eqb name ""); [done|].
  rewrite bool_decide_eq_true_2 by done. by destruct (leading_dot name).
Qed.

Lemma available_set_sys_modules ms st :
  sys_modules st ⊆ ms -> ms ⊆ available st ->
  available (set_sys_modules ms st) = available st.
Proof. unfold available; simpl. set_solver. Qed.

Lemma available_load name st :
  available (set_sys_modules (load name st) st) = available st.
Proof. apply available_set_sys_modules; apply load_bounds. Qed.

Lemma imported_nil st : imported [] st = sys_modules st.
Proof. reflexivity. Qed.

Lemma imported_cons name names st :
  imported names (set_sys_modules (load name st) st) = imported (name :: names) st.
Proof. reflexivity. Qed.

Lemma imported_bounds names : forall st,
  sys_modules st ⊆ imported names st /\ imported names st ⊆ available st.
Proof.
  induction names as [|name rest IH]; intros st; [unfold available; set_solver|].
  cbn [imported]. destruct (IH (set_sys_modules (load name st) st)) as [Hlo Hhi].
  rewrite available_load in Hhi. pose proof (load_bounds name st) as [? ?].
  simpl in Hlo. split; [set_solver|done].
Qed.

(** Importing never changes which names resolve. *)
Lemma available_imported names st :
  available (set_sys_modules (imported names st) st) = available st.
Proof. apply available_set_sys_modules; apply imported_bounds. Qed.

(** What was imported stays loaded. *)
Lemma imported_available names : forall st name,
  name ∈ names -> name <> "" -> name ∈ available st -> name ∈ imported names st.
Proof.
  induction names as [|n rest IH]; intros st name Hin Hne Hav.
  - by apply not_elem_of_nil in Hin.
  - cbn [imported]. apply elem_of_cons in Hin as [->|Hin].
    + apply imported_bounds. simpl. by apply load_available.
    + apply IH; [done|done|]. by rewrite available_load.
Qed.

(** Nothing is loaded when every name is loaded, or resolves not. *)
Lemma imported_settled names : forall st,
  (forall name, name ∈ names -> name ∈ sys_modules st \/ name ∉ available st) ->
  imported names st = sys_modules st.
Proof.
  induction names as [|n rest IH]; intros st Hall; [done|].
  cbn [imported].
  assert (load n st = sys_modules st) as ->.
  { destruct (Hall n) as [?|?]; [by left| by apply load_loaded|by apply load_unavailable]. }
  rewrite set_sys_modules_id. apply IH. intros name Hin. apply Hall. by right.
Qed.

Lemma unavailable_available st st' deps :
  available st' = available st -> unavailable st' deps = unavailable st deps.
Proof. unfold unavailable. by intros ->. Qed.

Lemma first_refusal_available st st' deps :
  available st' = available st -> first_refusal st' deps = first_refusal st deps.
Proof.
  intros Hav. induction deps as [|dep rest IH]; [done|].
  cbn [first_refusal]. by rewrite (import_outcome_available _ _ _ Hav), IH.
Qed.

(** In this interpreter a refusal is the [ValueError] of the empty name. *)
Lemma first_refusal_value st deps e :
  first_refusal st deps = Some e -> e = ValueError "Empty module name".
Proof.
  induction deps as [|dep rest IH]; [done|]. cbn [first_refusal].
  destruct (import_outcome st (normalize dep)) as [u|e'] eqn:Ho; [done|].
  destruct (is_ImportError e') eqn:He; [done|].
  intros [= <-]. by eapply import_refusal.
Qed.

Lemma first_refusal_empty st deps :
  "" ∈ deps -> first_refusal st deps = Some (ValueError "Empty module name").
Proof.
  intros Hin. destruct (first_refusal st deps) as [e|] eqn:Hr.
  { by rewrite (first_refusal_value _ _ _ Hr). }
  exfalso. induction deps as [|dep rest IH]; [by apply not_elem_of_nil in Hin|].
  cbn [first_refusal] in Hr. apply elem_of_cons in Hin as [<-|Hin].
  - by rewrite import_outcome_spec in Hr.
  - destruct (import_outcome st (normalize dep)) as [u|e']; [auto|].
    destruct (is_ImportError e'); [auto|done].
Qed.

(** ** The dependency resolver *)

(** One turn of the loop of [check_dependencies]. *)
Lemma check_dependency_turn missing dep st :
  try_except (import_ (replace "-" "_" dep) ;;; ret missing) is_ImportError
    (fun _ => ret (missing ++ [dep])%list) st
  = match import_outcome st (normalize dep) with
    | Ok _ => (Ok missing, set_sys_modules (load (normalize dep) st) st)
    | Raise e =>
        if is_ImportError e
        then (Ok (missing ++ [dep])%list, set_sys_modules (load (normalize dep) st) st)
        else (Raise e, set_sys_modules (load (normalize dep) st) st)
    end.
Proof.
  fold (normalize dep). unfold try_except, bind. rewrite import_state.
  destruct (import_outcome st (normalize dep)) as [u|e]; [done|].
  by destruct (is_ImportError e).
Qed.

Lemma check_dependencies_from_cons missing dep rest st :
  check_dependencies_from missing (dep :: rest) st
  = let st1 := set_sys_modules (load (normalize dep) st) st in
    match import_outcome st (normalize dep) with
    | Ok _ => check_dependencies_from missing rest st1
    | Raise e =>
        if is_ImportError e
        then check_dependencies_from (missing ++ [dep])%list rest st1
        else (Raise e, st1)
    end.
Proof.
  cbn [check_dependencies_from]. unfold bind at 1. rewrite check_dependency_turn.
  destruct (import_outcome st (normalize dep)) as [u|e]; [done|].
  by destruct (is_ImportError e).
Qed.

(** The empty name stops the loop where it stands. *)
Lemma check_dependencies_from_empty missing rest st :
  check_dependencies_from missing ("" :: rest) st
  = (Raise (ValueError "Empty module name"), st).
Proof.
  rewrite check_dependencies_from_cons. cbv zeta.
  change (normalize "") with "". change (load "" st) with (sys_modules st).
  by rewrite set_sys_modules_id.
Qed.

(** The whole loop: it stops at the first refusal of [__import__], and
    reports the names that resolve not when there is none. *)
Lemma check_dependencies_from_spec deps : forall missing st,
  match first_refusal st deps with
  | None =>
      check_dependencies_from missing deps st
      = (Ok (missing ++ unavailable st deps)%list,
         set_sys_modules (imported (normalize <$> deps) st) st)
  | Some e =>
      is_ImportError e = false /\
      exists ms,
        check_dependencies_from missing deps st = (Raise e, set_sys_modules ms st)
        /\ sys_modules st ⊆ ms /\ ms ⊆ available st
  end.
Proof.
  induction deps as [|dep rest IH]; intros missing st.
  - simpl. by rewrite set_sys_modules_id, app_nil_r.
  - rewrite check_dependencies_from_cons. cbn [first_refusal]. cbv zeta.
    pose proof (load_bounds (normalize dep) st) as [Hlo Hhi].
    pose proof (available_load (normalize dep) st) as Hav.
    set (st1 := set_sys_modules (load (normalize dep) st) st) in *.
    destruct (import_outcome st (normalize dep)) as [u|e] eqn:Ho.
    + cbv beta iota. apply import_ok_available in Ho as [_ Hin].
      specialize (IH missing st1). rewrite (first_refusal_available _ _ _ Hav) in IH.
      destruct (first_refusal st rest) as [e|].
      * destruct IH as (He & ms & Heq & Hlo' & Hhi'). split; [done|].
        exists ms. rewrite Heq, Hav in *. simpl in Hlo'.
        split; [done|]. split; [set_solver|done].
      * rewrite IH, (unavailable_available _ _ _ Hav). unfold st1.
        rewrite set_sys_modules_twice, fmap_cons, imported_cons.
        unfold unavailable. by rewrite filter_cons_False by (intros ?; done).
    + destruct (is_ImportError e) eqn:He; cbv beta iota.
      * apply import_error_unavailable in Ho; [|done].
        specialize (IH (missing ++ [dep])%list st1).
        rewrite (first_refusal_available _ _ _ Hav) in IH.
        destruct (first_refusal st rest) as [e'|].
        -- destruct IH as (He' & ms & Heq & Hlo' & Hhi'). split; [done|].
           exists ms. rewrite Heq, Hav in *. simpl in Hlo'.
           split; [done|]. split; [set_solver|done].
        -- rewrite IH, (unavailable_available _ _ _ Hav). unfold st1.
           rewrite set_sys_modules_twice, fmap_cons, imported_cons, <- app_assoc.
           unfold unavailable. by rewrite filter_cons_True by done.
      * split; [done|]. by exists (load (normalize dep) st).
Qed.

Lemma check_dependencies_ok deps st :
  first_refusal st deps = None ->
  check_dependencies deps st
  = (Ok (unavailable st deps), set_sys_modules (imported (normalize <$> deps) st) st).
Proof.
  intros Hr. unfold check_dependencies.
  pose proof (check_dependencies_from_spec deps [] st) as H. by rewrite Hr in H.
Qed.

Lemma check_dependencies_refused deps st e :
  first_refusal st deps = Some e ->
  is_ImportError e = false /\
  exists ms,
    check_dependencies deps st = (Raise e, set_sys_modules ms st)
    /\ sys_modules st ⊆ ms /\ ms ⊆ available st.
Proof.
  intros Hr. unfold check_dependencies.
  pose proof (check_dependencies_from_spec deps [] st) as H. by rewrite Hr in H.
Qed.

Lemma check_dependencies_inv deps st missing st' :
  check_dependencies deps st = (Ok missing, st') ->
  first_refusal st deps = None
  /\ missing = unavailable st deps
  /\ st' = set_sys_modules (imported (normalize <$> deps) st) st.
Proof.
  intros Hrun. destruct (first_refusal st deps) as [e|] eqn:Hr.
  - destruct (check_dependencies_refused _ _ _ Hr) as (_ & ms & Hraise & _). congruence.
  - rewrite (check_dependencies_ok _ _ Hr) in Hrun. by injection Hrun as <- <-.
Qed.

Lemma prepend_prepend {A} (acc acc' : list A) (m : M (list A)) st :
  prepend acc (prepend acc' m) st = prepend (acc ++ acc') m st.
Proof.
  unfold prepend, bind, ret. destruct (m st) as [[out|e] st1]; [|done].
  by rewrite app_assoc.
Qed.

(** The accumulator of the loop is a prefix of its result. *)
Lemma check_dependencies_from_acc deps : forall acc st,
  check_dependencies_from acc deps st
  = prepend acc (check_dependencies_from [] deps) st.
Proof.
  induction deps as [|dep rest IH]; intros acc st.
  - unfold prepend, bind, ret; simpl. unfold ret. by rewrite app_nil_r.
  - unfold prepend at 1. unfold bind at 1.
    rewrite !check_dependencies_from_cons. cbv zeta.
    destruct (import_outcome st (normalize dep)) as [u|e].
    + rewrite IH. reflexivity.
    + destruct (is_ImportError e); [|done].
      rewrite IH, (IH ([] ++ [dep])%list). symmetry. apply prepend_prepend.
Qed.

Lemma check_dependencies_from_app a b : forall acc st,
  check_dependencies_from acc (a ++ b) st
  = bind (check_dependencies_from acc a)
      (fun acc' => check_dependencies_from acc' b) st.
Proof.
  induction a as [|dep rest IH]; intros acc st; [done|].
  unfold bind at 1. rewrite <- app_comm_cons, !check_dependencies_from_cons. cbv zeta.
  destruct (import_outcome st (normalize dep)) as [u|e].
  - apply IH.
  - destruct (is_ImportError e); [apply IH|done].
Qed.

Lemma elem_of_unavailable st deps dep :
  dep ∈ unavailable st deps <-> dep ∈ deps /\ normalize dep ∉ available st.
Proof. unfold unavailable. rewrite list_elem_of_filter. tauto. Qed.

Lemma first_refusal_none st deps :
  first_refusal st deps = None ->
  forall dep, dep ∈ deps -> normalize dep <> "".
Proof.
  intros Hr dep Hin Hn. induction deps as [|d rest IH]; [by apply not_elem_of_nil in Hin|].
  cbn [first_refusal] in Hr. apply elem_of_cons in Hin as [<-|Hin].
  - by rewrite Hn, import_outcome_spec in Hr.
  - destruct (import_outcome st (normalize d)) as [u|e']; [auto|].
    destruct (is_ImportError e'); [auto|done].
Qed.

Lemma first_refusal_filter st (P : string -> Prop) `{forall x, Decision (P x)} deps :
  first_refusal st deps = None -> first_refusal st (filter P deps) = None.
Proof.
  induction deps as [|d rest IH]; [done|]. cbn [first_refusal]. intros Hr.
  assert (first_refusal st rest = None) as Hrest.
  { destruct (import_outcome st (normalize d)) as [u|e']; [done|].
    by destruct (is_ImportError e'). }
  destruct (decide (P d)).
  - rewrite filter_cons_True by done. cbn [first_refusal].
    destruct (import_outcome st (normalize d)) as [u|e']; [auto|].
    destruct (is_ImportError e'); [auto|done].
  - rewrite filter_cons_False by done. auto.
Qed.
(** ** How the state moves *)

Lemma evolves_refl st : evolves st st.
Proof. by split. Qed.

Lemma evolves_trans st1 st2 st3 : evolves st1 st2 -> evolves st2 st3 -> evolves st1 st3.
Proof.
  intros [] []. split; try congruence; try (etrans; eassumption).
Qed.

Lemma preserves_ret {A} (a : A) : preserves (ret a).
Proof. intros st. apply evolves_refl. Qed.

Lemma preserves_raise {A} e : preserves (@raise A e).
Proof. intros st. apply evolves_refl. Qed.

Lemma preserves_bind {A B} (m : M A) (k : A -> M B) :
  preserves m -> (forall a, preserves (k a)) -> preserves (bind m k).
Proof.
  intros Hm Hk st. unfold bind. specialize (Hm st).
  destruct (m st) as [[a|e] st1]; simpl in *; [|done].
  eapply evolves_trans; [eassumption|apply Hk].
Qed.

Lemma preserves_try_except {A} (m : M A) catches h :
  preserves m -> (forall e, preserves (h e)) -> preserves (try_except m catches h).
Proof.
  intros Hm Hh st. unfold try_except. specialize (Hm st).
  destruct (m st) as [[a|e] st1]; simpl in *; [done|].
  destruct (catches e); [|done].
  eapply evolves_trans; [eassumption|apply Hh].
Qed.

Lemma preserves_attempt {A} (m : M A) : preserves m -> preserves (attempt m).
Proof.
  intros Hm st. unfold attempt. specialize (Hm st). by destruct (m st).
Qed.

Lemma preserves_getitem {A} key (field : option A) : preserves (getitem key field).
Proof. destruct field; [apply preserves_ret|apply preserves_raise]. Qed.

Lemma preserves_emit r : preserves (emit r).
Proof. intros st. split; simpl; try done. by apply prefix_app_r. Qed.

Lemma preserves_store id t : preserves (store id t).
Proof.
  intros st. split; simpl; try done. rewrite dom_insert_L. set_solver.
Qed.

Lemma preserves_import name : preserves (import_ name).
Proof.
  intros st. rewrite import_state. cbn [snd].
  pose proof (load_bounds name st) as [? ?].
  split; simpl; try done. apply available_load.
Qed.

Lemma preserves_generate_deployment_config s :
  preserves (generate_deployment_config s).
Proof.
  unfold generate_deployment_config.
  repeat (apply preserves_bind; [apply preserves_getitem|intros ?]).
  apply preserves_ret.
Qed.

Lemma preserves_check_dependencies_from deps :
  forall missing, preserves (check_dependencies_from missing deps).
Proof.
  induction deps as [|dep rest IH]; intros missing; simpl.
  - apply preserves_ret.
  - apply preserves_bind; [|done].
    apply preserves_try_except; [|intros; apply preserves_ret].
    apply preserves_bind; [apply preserves_import|intros; apply preserves_ret].
Qed.

Lemma generate_deployment_config_pure s st :
  generate_deployment_config s st = (descriptor s, st).
Proof.
  unfold descriptor, generate_deployment_config.
  by destruct (Spec.name s), (Spec.type s).
Qed.

(** ** The digest as text *)

Example sha256_constants :
  length Sha256.K = 64%nat
  /\ nth 0 Sha256.K 0 = 0x428a2f98 /\ nth 63 Sha256.K 0 = 0xc67178f2
  /\ Sha256.ra Sha256.H0 = 0x6a09e667 /\ Sha256.rh Sha256.H0 = 0x5be0cd19.
Proof. vm_compute. repeat split. Qed.

Example sha256_empty :
  Sha256.hexdigest "" =
  "e3b0c44298fc1c149afbf4c8996fb92427ae41e4649b934ca495991b7852b855"%string.
Proof. vm_compute. reflexivity. Qed.

Example sha256_abc :
  Sha256.hexdigest "abc" =
  "ba7816bf8f01cfea414140de5dae2223b00361a396177a9cb410ff61f20015ad"%string.
Proof. vm_compute. reflexivity. Qed.

(** A message whose padding spills into a second block. *)
Example sha256_two_blocks :
  Sha256.hexdigest
    "aaaaaaaaaaaaaaaaaaaaaaaaaaaaaaaaaaaaaaaaaaaaaaaaaaaaaaaa" =
  "b35439a4ac6f0948b6d6f9e3c6af0f5f590ce20f1bde7090ef7970686ec6738a"%string.
Proof. vm_compute. reflexivity. Qed.

Lemma lower_hex_digit x : lower_hex (Sha256.hex_digit x) = true.
Proof. unfold Sha256.hex_digit. repeat case_match; reflexivity. Qed.

Lemma hexdigest_prefix s :
  exists r, String.substring 0 16 (Sha256.hexdigest s)
            = String.append (Sha256.hex_of 8 (Sha256.ra r)) (Sha256.hex_of 8 (Sha256.rb r)).
Proof. exists (Sha256.digest (Sha256.encode s)). reflexivity. Qed.

Lemma hexdigest_prefix_shape s :
  String.length (String.substring 0 16 (Sha256.hexdigest s)) = 16%nat
  /\ all_chars lower_hex (String.substring 0 16 (Sha256.hexdigest s)) = true.
Proof.
  destruct (hexdigest_prefix s) as [r ->]. split; [reflexivity|].
  cbv beta iota delta [Sha256.hex_of String.append all_chars].
  rewrite !lower_hex_digit. reflexivity.
Qed.

Lemma hexdigest_shape s :
  String.length (Sha256.hexdigest s) = 64%nat
  /\ all_chars lower_hex (Sha256.hexdigest s) = true.
Proof.
  unfold Sha256.hexdigest, Sha256.hex_regs. split; [reflexivity|].
  cbv beta iota delta [Sha256.hex_of String.append all_chars].
  rewrite !lower_hex_digit. reflexivity.
Qed.

(** ** The leaf components *)

(** C2. The quality score of a text is min(85 + 5 for a documentation
    block marker + 5 for an error-trap opener together with an
    error-handler keyword + 5 for an arrow marker, 100); it lies in
    [0, 100], is 85 without any marker, 95 with the documentation and
    error-handling markers but no arrow, and 100 with all three. *)
Theorem analyze_code_quality_score (code : string) :
  analyze_code_quality code
  = float_of_Z (marker_score (has_doc_marker code) (has_error_handling code)
                  (has_arrow_marker code))
  /\ PrimFloat.leb 0 (analyze_code_quality code) = true
  /\ PrimFloat.leb (analyze_code_quality code) 100 = true
  /\ (has_doc_marker code = false -> has_error_handling code = false ->
      has_arrow_marker code = false -> analyze_code_quality code = 85%float)
  /\ (has_doc_marker code = true -> has_error_handling code = true ->
      has_arrow_marker code = false -> analyze_code_quality code = 95%float)
  /\ (has_doc_marker code = true -> has_error_handling code = true ->
      has_arrow_marker code = true -> analyze_code_quality code = 100%float).
Proof.
  unfold analyze_code_quality, has_doc_marker, has_error_handling, has_arrow_marker.
  destruct (contains triple_quote code), (contains "try:" code),
    (contains "except" code), (contains "->" code);
    cbn [andb]; repeat split; intros; try discriminate; vm_compute; reflexivity.
Qed.

(** C3. The resolver is to return the subsequence of the names that cannot
    be located, an empty name included; on a list holding the empty name
    it raises instead: [__import__] refuses the empty name with a
    [ValueError], which [except ImportError] lets through. *)
Theorem check_dependencies_empty_name (before after : list string) (st : state) :
  exists st',
    check_dependencies (before ++ "" :: after) st
    = (Raise (ValueError "Empty module name"), st').
Proof.
  assert ("" ∈ (before ++ "" :: after)%list) as Hin.
  { apply elem_of_app. right. apply elem_of_cons. by left. }
  destruct (check_dependencies_refused _ st _ (first_refusal_empty st _ Hin))
    as (_ & ms & H & _).
  eexists. exact H.
Qed.

(** A name with a leading dot that the finders resolve: the module is
    loaded, [__import__] raises the [ValueError] of the empty name, and
    the names after it are not looked at. *)
Example check_dependencies_leading_dot :
  exists st',
    check_dependencies [".os"; "json"] packaged
    = (Raise (ValueError "Empty module name"), st')
    /\ ".os" ∈ sys_modules st' /\ "json" ∉ sys_modules st'.
Proof.
  eexists. split; [vm_compute; reflexivity|].
  split; apply (bool_decide_unpack _); vm_compute; exact I.
Qed.




(** C4, as the code has it. For a specification with its name and type
    present, the deployment manager returns a descriptor of fixed shape:
    the constant deployment kind ['docker'], constant resource requests
    (cpu 0.5, memory 512Mi, storage 1Gi) whatever the specification,
    environment variables holding the tool name, the tool type and the
    log level INFO, and a health check that is enabled, on the fixed path
    /health, every 30 seconds. *)
Theorem generate_deployment_config_shape (s : Spec.t) (n ty : string) (st : state) :
  Spec.name s = Some n -> Spec.type s = Some ty ->
  exists cfg,
    generate_deployment_config s st = (Ok cfg, st)
    /\ deployment_type cfg = "docker"
    /\ resource_requirements cfg
       = {| cpu := "0.5"; memory := "512Mi"; storage := "1Gi" |}
    /\ environment_variables cfg !! "TOOL_NAME" = Some n
    /\ environment_variables cfg !! "TOOL_TYPE" = Some ty
    /\ environment_variables cfg !! "LOG_LEVEL" = Some "INFO"
    /\ health_check cfg
       = {| enabled := true; endpoint := "/health"; interval := 30 |}.
Proof.
  intros Hn Hty. unfold generate_deployment_config. rewrite Hn, Hty.
  eexists. split; [reflexivity|]. cbn [deployment_type resource_requirements
    environment_variables health_check].
  split; [reflexivity|]. split; [reflexivity|].
  split; [apply lookup_insert_eq|].
  split; [rewrite lookup_insert_ne by done; apply lookup_insert_eq|].
  split; [|reflexivity].
  rewrite !lookup_insert_ne by done. apply lookup_singleton_eq.
Qed.


(** ** The pipeline *)

Lemma load_ext name st st' :
  module_index st' = module_index st -> sys_modules st' = sys_modules st ->
  load name st' = load name st.
Proof.
  intros Hi Hs. unfold load, import_. rewrite Hi, Hs.
  destruct (String.eqb name ""); [done|].
  case_bool_decide; [by destruct (leading_dot name)|].
  destruct (module_index st !! name); [by destruct (leading_dot name)|done].
Qed.

Lemma imported_ext names : forall st st',
  module_index st' = module_index st -> sys_modules st' = sys_modules st ->
  imported names st' = imported names st.
Proof.
  induction names as [|name rest IH]; intros st st' Hi Hs; [done|].
  cbn [imported]. rewrite (load_ext name st st' Hi Hs). by apply IH.
Qed.

Lemma first_error_available parser st st' s :
  available st' = available st -> first_error parser st' s = first_error parser st s.
Proof.
  intros Hav. unfold first_error.
  destruct (Spec.code s) as [c|]; [|done]. destruct (parser c); [done|].
  destruct (Spec.name s); [|done]. destruct (Spec.dependencies s) as [deps|]; [|done].
  by rewrite (first_refusal_available _ _ _ Hav).
Qed.

Lemma dependencies_resolve_refusal st s deps :
  dependencies_resolve st s -> Spec.dependencies s = Some deps ->
  first_refusal st deps = None.
Proof.
  intros Hres Hdeps. destruct (Hres _ Hdeps) as (missing & st' & Hrun).
  by apply check_dependencies_inv in Hrun as (? & _).
Qed.

(** With every key there and the dependencies checked, only the parser
    can stop the pipeline. *)
Lemma first_error_complete parser st s :
  complete s -> dependencies_resolve st s ->
  first_error parser st s = Spec.code s ≫= parser.
Proof.
  intros ([n Hn] & [ty Hty] & [c Hc] & [deps Hdeps] & [d Hd] & [caps Hcaps]) Hres.
  unfold first_error.
  rewrite Hc, Hn, Hdeps, Hty, Hd, Hcaps, (dependencies_resolve_refusal _ _ _ Hres Hdeps).
  simpl. destruct (parser c) as [e|]; [|done]. by destruct (is_SyntaxError e).
Qed.

(** With a text that parses and the dependencies checked, only a missing
    key can. *)
Lemma first_error_missing_key parser st s :
  (forall c, Spec.code s = Some c -> parser c = None) ->
  dependencies_resolve st s ->
  first_error parser st s = KeyError <$> missing_key s.
Proof.
  intros Hparse Hres. unfold first_error, missing_key.
  destruct (Spec.code s) as [c|]; [|done]. rewrite (Hparse c eq_refl).
  destruct (Spec.name s); [|done].
  destruct (Spec.dependencies s) as [deps|] eqn:Hdeps; [|done].
  rewrite (dependencies_resolve_refusal _ _ _ Hres Hdeps).
  by destruct (Spec.type s), (Spec.description s), (Spec.capabilities s).
Qed.

Ltac evaluate :=
  cbv beta iota zeta delta
    [compile_and_validate_tool first_error bind try_except getitem ret raise
     parse emit store now generate_deployment_config check_dependencies
     default from_option id
     Spec.name Spec.type Spec.code Spec.dependencies Spec.description
     Spec.capabilities Spec.case_specific].

(** The check of the dependencies, from the state [st] the pipeline
    started in. *)
Ltac check_dependencies_in st :=
  match goal with
  | |- context [check_dependencies_from [] ?deps ?s1] =>
      let H := fresh "Hcheck" in
      pose proof (check_dependencies_from_spec deps [] s1) as H;
      rewrite (first_refusal_available st s1 deps eq_refl),
        (unavailable_available st s1 deps eq_refl),
        (imported_ext (normalize <$> deps) st s1 eq_refl eq_refl) in H;
      destruct (first_refusal st deps) as [?e|];
      [ destruct H as (_ & ?ms & -> & _) | rewrite H; clear H; rewrite ?app_nil_l ]
  end.

Section ForgeFacts.
Variable ast_parse : string -> option exn.
Variable utcnow : nat -> string.

Local Abbreviation compile := (compile_and_validate_tool ast_parse utcnow).
Local Abbreviation compile_all := (generate_case_tools ast_parse utcnow).

Lemma preserves_now : preserves (now utcnow).
Proof. intros st. by split. Qed.

Lemma preserves_parse code : preserves (parse ast_parse code).
Proof. unfold parse. destruct (ast_parse code); [apply preserves_raise|apply preserves_ret]. Qed.

Ltac frame :=
  repeat first
    [ apply preserves_ret | apply preserves_raise | apply preserves_getitem
    | apply preserves_emit | apply preserves_store | apply preserves_now
    | apply preserves_parse | apply preserves_generate_deployment_config
    | apply preserves_check_dependencies_from
    | apply preserves_bind | apply preserves_try_except | apply preserves_attempt
    | progress intros
    | match goal with |- preserves (match ?x with _ => _ end) => destruct x end ].

Lemma preserves_compile s : preserves (compile s).
Proof. unfold compile_and_validate_tool, check_dependencies. frame. Qed.

Lemma preserves_failed_to_compile s e : preserves (failed_to_compile s e).
Proof. unfold failed_to_compile. frame. Qed.

Lemma preserves_compile_tools tools :
  forall compiled, preserves (compile_tools ast_parse utcnow compiled tools).
Proof.
  induction tools as [|tool rest IH]; intros compiled; simpl.
  - apply preserves_ret.
  - apply preserves_bind; [apply preserves_attempt, preserves_compile|].
    intros [t|e]; frame; try apply preserves_failed_to_compile; apply IH.
Qed.

Local Opaque Sha256.hexdigest analyze_code_quality String.substring
  check_dependencies_from.

Lemma compile_spec s st :
  match compile s st with
  | (Ok t, st') =>
      first_error ast_parse st s = None
      /\ assembled utcnow s st t /\ registered st t st'
  | (Raise e, st') =>
      first_error ast_parse st s = Some e
      /\ generated_tools st' = generated_tools st
      /\ ticks st' = ticks st
  end.
Proof.
  destruct s as [[n|] [ty|] [c|] [deps|] [d|] [caps|] cs].
  2-64: evaluate; try done;
    (destruct (ast_parse c) as [e|]; [by destruct (is_SyntaxError e)|]);
    try done; check_dependencies_in st; try done;
    by destruct (unavailable st deps).
  evaluate. destruct (ast_parse c) as [e|]; [by destruct (is_SyntaxError e)|].
  check_dependencies_in st; [done|].
  destruct (unavailable st deps) as [|m missing] eqn:Hmissing; simpl;
    (split; [done|split; constructor; simpl; rewrite ?Hmissing; try done]).
  by rewrite <- app_assoc.
Qed.

Lemma compile_ok s st :
  first_error ast_parse st s = None ->
  exists t st', compile s st = (Ok t, st')
                /\ assembled utcnow s st t /\ registered st t st'.
Proof.
  intros Hc. pose proof (compile_spec s st) as H.
  destruct (compile s st) as [[t|e] st']; [|destruct H; congruence].
  exists t, st'. by destruct H as (_ & ? & ?).
Qed.

Lemma compile_inv s st t st' :
  compile s st = (Ok t, st') ->
  first_error ast_parse st s = None /\ assembled utcnow s st t /\ registered st t st'.
Proof. intros H. pose proof (compile_spec s st) as Hs. by rewrite H in Hs. Qed.

Lemma compile_raises s st e :
  first_error ast_parse st s = Some e ->
  exists st', compile s st = (Raise e, st')
              /\ generated_tools st' = generated_tools st /\ ticks st' = ticks st.
Proof.
  intros Hc. pose proof (compile_spec s st) as H.
  destruct (compile s st) as [[t|e'] st'].
  - destruct H as (? & _). congruence.
  - destruct H as (He & ? & ?). exists st'. by replace e with e' by congruence.
Qed.

Lemma compile_raises_inv s st e st' :
  compile s st = (Raise e, st') ->
  first_error ast_parse st s = Some e
  /\ generated_tools st' = generated_tools st /\ ticks st' = ticks st.
Proof. intros H. pose proof (compile_spec s st) as Hs. by rewrite H in Hs. Qed.

(** A text the parser refuses: a [SyntaxError] is logged and raised
    again, another exception leaves at once. *)
Lemma compile_unparsable s c e st :
  Spec.code s = Some c -> ast_parse c = Some e ->
  compile s st
  = if is_SyntaxError e
    then match Spec.name s with
         | Some n => (Raise e, set_log (log st ++ [ErrorSyntax n e]) st)
         | None => (Raise (KeyError "name"), st)
         end
    else (Raise e, st).
Proof.
  destruct s as [n ty c' deps d caps cs]; simpl. intros -> Hparse.
  evaluate. rewrite Hparse. destruct (is_SyntaxError e); [|done]. by destruct n.
Qed.

(** Two runs of the pipeline on one specification, from states that
    resolve the same names. *)
Lemma assembled_agree s st1 st2 t1 t2 :
  available st2 = available st1 ->
  assembled utcnow s st1 t1 -> assembled utcnow s st2 t2 ->
  same_content t1 t2.
Proof.
  intros Hav [F1 [C1 I1] Q1 M1 D1 _ S1] [F2 [C2 I2] Q2 M2 D2 _ S2].
  destruct F1 as (N1 & T1 & _ & P1 & E1 & A1 & B1).
  destruct F2 as (N2 & T2 & _ & P2 & E2 & A2 & B2).
  assert (Tool.code t1 = Tool.code t2) as Hcode by congruence.
  assert (Tool.dependencies t1 = Tool.dependencies t2) as Hdeps by congruence.
  assert (Tool.missing_dependencies t1 = Tool.missing_dependencies t2) as Hmiss.
  { rewrite M1, M2, Hdeps. symmetry. by apply unavailable_available. }
  repeat split; congruence.
Qed.

Lemma registered_available st t st' : registered st t st' -> available st' = available st.
Proof.
  intros [Hi Hl _ _ _]. unfold available. rewrite Hi, Hl.
  pose proof (imported_bounds (normalize <$> Tool.dependencies t) st) as [? ?].
  unfold available in *. set_solver.
Qed.

(** ** The claims about the pipeline *)

Lemma compile_again s st t1 st1 :
  compile s st = (Ok t1, st1) ->
  exists t2 st2,
    compile s st1 = (Ok t2, st2)
    /\ same_content t1 t2
    /\ assembled utcnow s st1 t2 /\ registered st1 t2 st2.
Proof.
  intros H1. apply compile_inv in H1 as (Hc & A1 & R1).
  pose proof (registered_available _ _ _ R1) as Hav.
  rewrite <- (first_error_available _ _ _ _ Hav) in Hc.
  destruct (compile_ok s st1 Hc) as (t2 & st2 & H2 & A2 & R2).
  exists t2, st2. split; [done|]. split; [|done].
  by eapply assembled_agree; [|exact A1|exact A2].
Qed.

(** C5. With the names the environment resolves held fixed, two runs of
    a specification through the pipeline give compiled tools with the
    same id, quality score, missing dependencies and deployment
    configuration, the timestamps apart; so do two runs in a row on one
    forge. The deployment configuration is a function of the name and
    type of the specification alone. *)
Theorem compile_deterministic (s : Spec.t) :
  (forall st1 st2 t1 st1',
     compile s st1 = (Ok t1, st1') -> available st2 = available st1 ->
     exists t2 st2',
       compile s st2 = (Ok t2, st2')
       /\ Tool.tool_id t2 = Tool.tool_id t1
       /\ Tool.quality_score t2 = Tool.quality_score t1
       /\ Tool.missing_dependencies t2 = Tool.missing_dependencies t1
       /\ Tool.deployment_config t2 = Tool.deployment_config t1)
  /\ (forall st t1 st1,
        compile s st = (Ok t1, st1) ->
        exists t2 st2,
          compile s st1 = (Ok t2, st2)
          /\ Tool.tool_id t2 = Tool.tool_id t1
          /\ Tool.quality_score t2 = Tool.quality_score t1
          /\ Tool.missing_dependencies t2 = Tool.missing_dependencies t1
          /\ Tool.deployment_config t2 = Tool.deployment_config t1)
  /\ (forall s' st st',
        Spec.name s' = Spec.name s -> Spec.type s' = Spec.type s ->
        fst (generate_deployment_config s' st')
        = fst (generate_deployment_config s st)).
Proof.
  split; [|split].
  - intros st1 st2 t1 st1' H1 Hav.
    apply compile_inv in H1 as (Hc & A1 & _).
    rewrite <- (first_error_available _ _ _ _ Hav) in Hc.
    destruct (compile_ok s st2 Hc) as (t2 & st2' & H2 & A2 & _).
    exists t2, st2'. split; [done|].
    pose proof (assembled_agree _ _ _ _ _ Hav A1 A2) as C.
    unfold same_content in C. intuition congruence.
  - intros st t1 st1 H1.
    destruct (compile_again _ _ _ _ H1) as (t2 & st2 & H2 & C & _).
    exists t2, st2. split; [done|].
    unfold same_content in C. intuition congruence.
  - intros s' st st' Hn Hty. unfold generate_deployment_config.
    rewrite Hn, Hty. by destruct (Spec.name s), (Spec.type s).
Qed.

(** C6. Compiling a specification twice on one forge leaves one registry
    entry for its id: the second run writes under the id of the first,
    the entry is replaced by a record of the same content, and the
    registry has the keys and the size it had after the first run. *)
Theorem registry_idempotent (s : Spec.t) (st : state) (t1 : Tool.t) (st1 : state) :
  compile s st = (Ok t1, st1) ->
  exists t2 st2,
    compile s st1 = (Ok t2, st2)
    /\ Tool.tool_id t2 = Tool.tool_id t1
    /\ same_content t1 t2
    /\ generated_tools st1 !! Tool.tool_id t1 = Some t1
    /\ generated_tools st2 = <[Tool.tool_id t1 := t2]> (generated_tools st1)
    /\ generated_tools st2 !! Tool.tool_id t1 = Some t2
    /\ dom (generated_tools st2) = dom (generated_tools st1)
    /\ size (generated_tools st2) = size (generated_tools st1).
Proof.
  intros H1.
  destruct (compile_again _ _ _ _ H1) as (t2 & st2 & H2 & C & _ & R2).
  apply compile_inv in H1 as (_ & _ & R1).
  assert (Tool.tool_id t2 = Tool.tool_id t1) as Hid by (symmetry; apply C).
  assert (generated_tools st1 !! Tool.tool_id t1 = Some t1) as Hin.
  { rewrite (reg_tools _ _ _ R1). apply lookup_insert_eq. }
  exists t2, st2. rewrite (reg_tools _ _ _ R2), Hid.
  do 5 (split; [done|]). split; [apply lookup_insert_eq|]. split.
  - rewrite dom_insert_L. apply elem_of_dom_2 in Hin. set_solver.
  - by erewrite map_size_insert_Some.
Qed.

(** C7. A missing dependency is to be reported as data, with the status
    [warning], and never to abort the compilation. A specification with
    its name, a text that parses and an empty name among its declared
    dependencies is not compiled: the [ValueError] that [__import__]
    raises for the empty name leaves [check_dependencies] (line 474) and
    the pipeline with it, no compiled tool is produced and none is
    registered. *)
Theorem compile_aborts_on_empty_dependency (s : Spec.t) (st : state)
    (n c : string) (deps : list string) :
  Spec.name s = Some n -> Spec.code s = Some c -> ast_parse c = None ->
  Spec.dependencies s = Some deps -> "" ∈ deps ->
  exists st',
    compile s st = (Raise (ValueError "Empty module name"), st')
    /\ generated_tools st' = generated_tools st.
Proof.
  intros Hn Hc Hp Hdeps Hin.
  destruct (compile_raises s st (ValueError "Empty module name"))
    as (st' & Hrun & Hreg & _).
  - unfold first_error. by rewrite Hc, Hp, Hn, Hdeps, (first_refusal_empty _ _ Hin).
  - eauto.
Qed.

Lemma evolves_perform st o : evolves st (perform ast_parse utcnow st o).
Proof.
  destruct o; simpl; [apply preserves_compile|apply preserves_compile_tools].
Qed.

Lemma evolves_run ops : forall st, evolves st (run ast_parse utcnow ops st).
Proof.
  induction ops as [|o ops IH]; intros st; simpl.
  - apply evolves_refl.
  - eapply evolves_trans; [apply evolves_perform|apply IH].
Qed.

(** C9. Whatever compile operations are performed on a forge, the
    registry loses no entry: an id that is mapped stays mapped, and the
    id written by a successful compilation is mapped from then on. *)
Theorem registry_never_loses (ops : list operation) :
  (forall st id,
     is_Some (generated_tools st !! id) ->
     is_Some (generated_tools (run ast_parse utcnow ops st) !! id))
  /\ (forall s st t st',
        compile s st = (Ok t, st') ->
        generated_tools st' !! Tool.tool_id t = Some t
        /\ is_Some (generated_tools (run ast_parse utcnow ops st') !! Tool.tool_id t)).
Proof.
  assert (forall st id,
     is_Some (generated_tools st !! id) ->
     is_Some (generated_tools (run ast_parse utcnow ops st) !! id)) as Hkeep.
  { intros st id Hid. apply elem_of_dom. apply elem_of_dom in Hid.
    pose proof (evolves_registry _ _ (evolves_run ops st)). set_solver. }
  split; [done|].
  intros s st t st' H. apply compile_inv in H as (_ & _ & R).
  assert (generated_tools st' !! Tool.tool_id t = Some t) as Hin.
  { rewrite (reg_tools _ _ _ R). apply lookup_insert_eq. }
  split; [done|]. apply Hkeep. by rewrite Hin.
Qed.

(** C10. The id of a compiled tool is the first 16 characters of the
    hexadecimal SHA-256 digest of its source text: 16 lowercase
    hexadecimal characters, the same for any two specifications with the
    same text. *)
Theorem tool_id_is_sha256_prefix (s : Spec.t) (st : state) (t : Tool.t) (st' : state) :
  compile s st = (Ok t, st') ->
  (exists code,
     Spec.code s = Some code
     /\ Tool.tool_id t = String.substring 0 16 (Sha256.hexdigest code))
  /\ String.length (Tool.tool_id t) = 16%nat
  /\ all_chars lower_hex (Tool.tool_id t) = true
  /\ (forall s2 st2 t2 st2',
        compile s2 st2 = (Ok t2, st2') -> Spec.code s2 = Spec.code s ->
        Tool.tool_id t2 = Tool.tool_id t).
Proof.
  intros H. apply compile_inv in H as (_ & A & _).
  destruct (asm_id _ _ _ _ A) as [Hc Hid].
  split; [eauto|]. rewrite Hid.
  split; [apply hexdigest_prefix_shape|]. split; [apply hexdigest_prefix_shape|].
  intros s2 st2 t2 st2' H2 Hsame. apply compile_inv in H2 as (_ & A2 & _).
  destruct (asm_id _ _ _ _ A2) as [Hc2 Hid2].
  rewrite Hid2. congruence.
Qed.

(** ** The compilation loop *)

(** One turn of the loop. *)
Lemma compile_tools_turn compiled tool rest st :
  compile_tools ast_parse utcnow compiled (tool :: rest) st
  = match compile tool st, Spec.name tool with
    | (_, st1), None => (Raise (KeyError "name"), st1)
    | (Ok t, st1), Some n =>
        compile_tools ast_parse utcnow (compiled ++ [t])%list rest
          (set_log (log st1 ++ [InfoCompiled n]) st1)
    | (Raise e, st1), Some n =>
        compile_tools ast_parse utcnow compiled rest
          (set_log (log st1 ++ [ErrorFailedToCompile n e]) st1)
    end.
Proof.
  cbn [compile_tools]. unfold bind at 1, attempt.
  destruct (compile tool st) as [[t|e] st1];
    unfold bind, try_except, failed_to_compile, bind, getitem;
    by destruct (Spec.name tool).
Qed.

(** A batch of specifications that carry their name is not aborted. *)
Lemma compile_tools_returns tools : forall compiled st,
  Forall (fun s => is_Some (Spec.name s)) tools ->
  exists out st', compile_tools ast_parse utcnow compiled tools st = (Ok out, st').
Proof.
  induction tools as [|tool rest IH]; intros compiled st Hnames; [by eexists _, _|].
  apply Forall_cons in Hnames as [[n Hn] Hrest].
  rewrite compile_tools_turn, Hn.
  destruct (compile tool st) as [[t|e] st1]; by apply IH.
Qed.

Lemma compile_tools_spec tools : forall compiled st0 st,
  available st = available st0 ->
  Forall complete tools -> Forall (dependencies_resolve st0) tools ->
  exists new st' added,
    compile_tools ast_parse utcnow compiled tools st = (Ok (compiled ++ new)%list, st')
    /\ Forall2 compiled_from new
         (List.filter (fun s => negb (unparsable ast_parse s)) tools)
    /\ log st' = (log st ++ added)%list
    /\ forall s n c e,
         s ∈ tools -> Spec.name s = Some n -> Spec.code s = Some c ->
         ast_parse c = Some e ->
         ErrorFailedToCompile n e ∈ added.
Proof.
  induction tools as [|tool rest IH]; intros compiled st0 st Hav Hall Hres.
  - exists [], st, []. simpl. rewrite !app_nil_r.
    repeat split; [constructor|]. intros s n c e Hin. by apply not_elem_of_nil in Hin.
  - apply Forall_cons in Hall as [Hcomplete Hall].
    apply Forall_cons in Hres as [Hresolve Hres].
    pose proof (first_error_complete ast_parse _ _ Hcomplete Hresolve) as Herr.
    rewrite <- (first_error_available _ _ _ _ Hav) in Herr.
    destruct Hcomplete as ([n Hn] & _ & [c Hc] & _).
    rewrite Hc in Herr. cbn [mbind option_bind] in Herr.
    rewrite compile_tools_turn, Hn. cbn [List.filter]. unfold unparsable at 1.
    rewrite Hc.
    pose proof (evolves_log _ _ (preserves_compile tool st)) as [l1 Hl1].
    pose proof (evolves_available _ _ (preserves_compile tool st)) as Hav1.
    destruct (ast_parse c) as [e|] eqn:Hparse; cbn [negb].
    + destruct (compile_raises tool st e Herr) as (st1 & Hrun & _).
      rewrite Hrun in *. cbn [snd] in *.
      match goal with |- context [compile_tools _ _ ?a _ ?s1] =>
        destruct (IH a st0 s1) as (new & st' & added & -> & Hnew & Hlog & Hrej);
          [change (available st1 = available st0); congruence|done|done|] end.
      eexists new, st', _. split; [done|]. split; [done|].
      split.
      * rewrite Hlog. cbn [set_log log]. rewrite Hl1, <- !app_assoc. reflexivity.
      * intros s m c' e' Hin Hm Hcode Hp.
        apply elem_of_cons in Hin as [->|Hin].
        { assert (m = n) as -> by congruence.
          assert (e' = e) as -> by congruence.
          rewrite !elem_of_app. right. left. apply elem_of_cons. by left. }
        rewrite !elem_of_app. right. right. eauto.
    + destruct (compile_ok tool st Herr) as (t & st1 & Hrun & A & R).
      rewrite Hrun in *. cbn [snd] in *.
      match goal with |- context [compile_tools _ _ ?a _ ?s1] =>
        destruct (IH a st0 s1) as (new & st' & added & -> & Hnew & Hlog & Hrej);
          [change (available st1 = available st0); congruence|done|done|] end.
      eexists (t :: new), st', _. split; [by rewrite <- app_assoc|].
      split; [constructor; [apply A|done]|].
      split.
      * rewrite Hlog. cbn [set_log log]. rewrite Hl1, <- !app_assoc. reflexivity.
      * intros s m c' e' Hin Hm Hcode Hp.
        apply elem_of_cons in Hin as [->|Hin]; [congruence|].
        rewrite !elem_of_app. right. right. eauto.
Qed.

(** C1, as the code has it. For every batch of specifications that carry
    the keys the pipeline reads and whose dependency checks return, the
    loop returns normally. A specification whose text the parser refuses
    is left out of the output; the rejection is not part of the returned
    value but is written to the log, as an error record with the name of
    the specification and the exception of the parser. Every other
    specification of the batch is compiled: the output holds, in order,
    one compiled tool for each specification whose text parses. *)
Theorem generate_case_tools_partial_failure (tools : list Spec.t) (st : state) :
  Forall complete tools -> Forall (dependencies_resolve st) tools ->
  exists out st' added,
    compile_all tools st = (Ok out, st')
    /\ Forall2 compiled_from out
         (List.filter (fun s => negb (unparsable ast_parse s)) tools)
    /\ log st' = (log st ++ added)%list
    /\ forall s n c e,
         s ∈ tools -> Spec.name s = Some n -> Spec.code s = Some c ->
         ast_parse c = Some e ->
         ErrorFailedToCompile n e ∈ added.
Proof.
  intros Hall Hres.
  destruct (compile_tools_spec tools [] st st eq_refl Hall Hres)
    as (new & st' & added & Hrun & Hnew & Hlog & Hrej).
  by exists new, st', added.
Qed.

End ForgeFacts.

(** ** The forge at work on the runnable instance *)

Lemma demo_compile_ok : exists t st', demo_compile = (Ok t, st').
Proof. eexists _, _. vm_compute. reflexivity. Defined.

Lemma mixed_batch_complete : Forall complete mixed_batch.
Proof. repeat constructor; eexists; reflexivity. Defined.

Lemma mixed_batch_resolves : Forall (dependencies_resolve (fresh installed)) mixed_batch.
Proof.
  repeat constructor; intros deps [= <-]; eexists _, _; vm_compute; reflexivity.
Defined.

Lemma generate_case_tools_partial_failure_witness :
  exists out st' added,
    generate_case_tools paren_parse counting_clock mixed_batch (fresh installed)
    = (Ok out, st')
    /\ Forall2 compiled_from out [timeline_spec; evidence_spec]
    /\ log st' = (log (fresh installed) ++ added)%list
    /\ ErrorFailedToCompile "compliance_monitor_1FDV"
         (SyntaxError {| lineno := 1; offset := 12; msg := "'(' was never closed" |})
       ∈ added
    /\ ErrorFailedToCompile "communication_tracker_1FDV"
         (ValueError "source code string cannot contain null bytes")
       ∈ added.
Proof.
  destruct (generate_case_tools_partial_failure paren_parse counting_clock
              mixed_batch (fresh installed) mixed_batch_complete mixed_batch_resolves)
    as (out & st' & added & Hrun & Hout & Hlog & Hrej).
  exists out, st', added. split; [exact Hrun|]. split; [exact Hout|].
  split; [exact Hlog|]. split.
  - eapply (Hrej broken_spec).
    + apply list_elem_of_further, list_elem_of_here.
    + reflexivity.
    + reflexivity.
    + vm_compute. reflexivity.
  - eapply (Hrej null_byte_spec).
    + apply list_elem_of_further, list_elem_of_further, list_elem_of_here.
    + reflexivity.
    + reflexivity.
    + vm_compute. reflexivity.
Defined.

(** The returned value is the same with and without the rejected
    specification, so no report can be read off it. *)
Lemma rejections_not_returned : ~ rejections_returned paren_parse counting_clock.
Proof.
  intros [report H].
  destruct (generate_case_tools paren_parse counting_clock [evidence_spec]
              (fresh installed)) as [[out|e] st2] eqn:E2;
    [|vm_compute in E2; discriminate].
  assert (generate_case_tools paren_parse counting_clock
            [evidence_spec; broken_spec] (fresh installed)
          = (Ok out, snd (generate_case_tools paren_parse counting_clock
                            [evidence_spec; broken_spec] (fresh installed)))) as E1.
  { vm_compute in E2. injection E2 as <- _. vm_compute. reflexivity. }
  apply H in E1. apply H in E2. rewrite E1 in E2.
  vm_compute in E2. discriminate.
Qed.

Lemma analyze_code_quality_score_witness :
  analyze_code_quality documented_code = 95%float.
Proof.
  apply (analyze_code_quality_score documented_code); vm_compute; reflexivity.
Defined.

(** The deployment kind of a descriptor is ['docker'], not [container]. *)
Lemma deployment_kind_not_container : ~ deployment_kind_container.
Proof.
  intros H. specialize (H timeline_spec (fresh installed) _ _ eq_refl).
  discriminate H.
Qed.

Lemma generate_deployment_config_shape_witness :
  exists cfg,
    generate_deployment_config timeline_spec (fresh installed)
    = (Ok cfg, fresh installed)
    /\ deployment_type cfg = "docker"
    /\ resource_requirements cfg
       = {| cpu := "0.5"; memory := "512Mi"; storage := "1Gi" |}
    /\ environment_variables cfg !! "TOOL_NAME" = Some "timeline_reconstructor_1FDV"
    /\ environment_variables cfg !! "TOOL_TYPE" = Some "timeline_analyzer"
    /\ environment_variables cfg !! "LOG_LEVEL" = Some "INFO"
    /\ health_check cfg
       = {| enabled := true; endpoint := "/health"; interval := 30 |}.
Proof.
  apply (generate_deployment_config_shape timeline_spec); reflexivity.
Defined.

Lemma compile_deterministic_witness :
  exists t1 st1 t2 st2,
    demo_compile = (Ok t1, st1)
    /\ compile_and_validate_tool paren_parse counting_clock timeline_spec
         (set_sys_modules ∅ st1) = (Ok t2, st2)
    /\ Tool.tool_id t2 = Tool.tool_id t1
    /\ Tool.quality_score t2 = Tool.quality_score t1
    /\ Tool.missing_dependencies t2 = Tool.missing_dependencies t1
    /\ Tool.deployment_config t2 = Tool.deployment_config t1.
Proof.
  destruct demo_compile_ok as (t1 & st1 & H1).
  assert (available (set_sys_modules ∅ st1) = available (fresh installed)) as Hav.
  { revert H1. vm_compute. intros [= _ <-]. reflexivity. }
  destruct (proj1 (compile_deterministic paren_parse counting_clock timeline_spec)
              _ _ _ _ H1 Hav) as (t2 & st2 & H2).
  exists t1, st1, t2, st2. split; [exact H1|exact H2].
Defined.

Lemma registry_idempotent_witness :
  exists t1 st1 t2 st2,
    demo_compile = (Ok t1, st1)
    /\ compile_and_validate_tool paren_parse counting_clock timeline_spec st1
       = (Ok t2, st2)
    /\ generated_tools st2 !! Tool.tool_id t1 = Some t2
    /\ size (generated_tools st2) = size (generated_tools st1).
Proof.
  destruct demo_compile_ok as (t1 & st1 & H1).
  destruct (registry_idempotent paren_parse counting_clock _ _ _ _ H1)
    as (t2 & st2 & H2 & _ & _ & _ & _ & Hin & _ & Hsize).
  exists t1, st1, t2, st2. repeat split; assumption.
Defined.

Lemma compile_aborts_on_empty_dependency_witness :
  exists st',
    compile_and_validate_tool paren_parse counting_clock empty_dependency_spec
      (fresh installed)
    = (Raise (ValueError "Empty module name"), st')
    /\ generated_tools st' = ∅.
Proof.
  apply (compile_aborts_on_empty_dependency paren_parse counting_clock
           empty_dependency_spec (fresh installed)
           "deadline_manager_1FDV" "def remind(): pass" ["nonexistent-pkg-xyz"; ""]).
  - reflexivity.
  - reflexivity.
  - vm_compute. reflexivity.
  - reflexivity.
  - apply list_elem_of_further, list_elem_of_here.
Defined.




Lemma registry_never_loses_witness :
  exists t st',
    demo_compile = (Ok t, st')
    /\ is_Some (generated_tools
                  (run paren_parse counting_clock
                     [GenerateCaseTools demo_batch;
                      CompileAndValidateTool broken_spec] st')
                !! Tool.tool_id t).
Proof.
  destruct demo_compile_ok as (t & st' & H).
  exists t, st'. split; [exact H|].
  apply (proj2 (registry_never_loses paren_parse counting_clock _) _ _ _ _ H).
Defined.

Lemma tool_id_is_sha256_prefix_witness :
  exists t st',
    demo_compile = (Ok t, st')
    /\ Tool.tool_id t = "70724ab6c1a8ed2b"
    /\ String.length (Tool.tool_id t) = 16%nat.
Proof.
  destruct demo_compile_ok as (t & st' & H).
  destruct (tool_id_is_sha256_prefix paren_parse counting_clock _ _ _ _ H)
    as ((code & Hc & Hid) & Hlen & _).
  exists t, st'. split; [exact H|]. split; [|exact Hlen].
  rewrite Hid. injection Hc as <-. vm_compute. reflexivity.
Defined.

(** * Further properties *)

(** ** The dependency resolver, beyond the claims *)

(** Once the resolver has returned, a declared dependency is in its report
    exactly when the module of its normalized name is not loaded: what is
    not reported has been imported, what is reported has not. *)
Theorem check_dependencies_loads (deps : list string) (st : state)
    (missing : list string) (st' : state) :
  check_dependencies deps st = (Ok missing, st') ->
  forall dep, dep ∈ deps -> (dep ∈ missing <-> normalize dep ∉ sys_modules st').
Proof.
  intros H dep Hdep. apply check_dependencies_inv in H as (Hr & -> & ->).
  rewrite elem_of_unavailable. cbn [set_sys_modules sys_modules].
  pose proof (imported_bounds (normalize <$> deps) st) as [_ Hhi].
  split.
  - intros [_ Hout] Hin. apply Hout. by apply Hhi.
  - intros Hout. split; [done|]. intros Hav. apply Hout.
    apply imported_available; [|by eapply first_refusal_none|done].
    apply list_elem_of_fmap. eauto.
Qed.

Lemma unavailable_fixed st deps :
  unavailable st (unavailable st deps) = unavailable st deps.
Proof.
  unfold unavailable. induction deps as [|d deps IH]; [done|].
  destruct (decide (normalize d ∉ available st)).
  - rewrite filter_cons_True by done. rewrite filter_cons_True by done. by f_equal.
  - by rewrite filter_cons_False by done.
Qed.

(** From the state a check leaves, the names it looked at are settled:
    loaded, or not to be located. *)
Lemma imported_again deps st names :
  first_refusal st deps = None ->
  (forall name, name ∈ names -> exists dep, dep ∈ deps /\ name = normalize dep) ->
  let st' := set_sys_modules (imported (normalize <$> deps) st) st in
  set_sys_modules (imported names st') st' = st'.
Proof.
  intros Hr Hnames st'. rewrite <- (set_sys_modules_id st') at 3. f_equal.
  apply imported_settled. intros name (dep & Hdep & ->)%Hnames.
  unfold st' at 2. rewrite available_imported.
  destruct (decide (normalize dep ∈ available st)) as [Hin|Hout]; [left|by right].
  apply imported_available; [|by eapply first_refusal_none|done].
  apply list_elem_of_fmap. eauto.
Qed.

(** Checking again changes nothing: from the state the resolver leaves,
    the same list gets the same report, the report itself is reported in
    full, and in both cases the state stays as it is. *)
Theorem check_dependencies_again (deps : list string) (st : state)
    (missing : list string) (st' : state) :
  check_dependencies deps st = (Ok missing, st') ->
  check_dependencies deps st' = (Ok missing, st')
  /\ check_dependencies missing st' = (Ok missing, st').
Proof.
  intros H. apply check_dependencies_inv in H as (Hr & -> & ->).
  set (st' := set_sys_modules _ st).
  assert (available st' = available st) as Hav by apply available_imported.
  split.
  - rewrite check_dependencies_ok by by rewrite (first_refusal_available _ _ _ Hav).
    rewrite (unavailable_available st st') by done. f_equal.
    apply (imported_again deps st _ Hr).
    intros name (dep & -> & Hdep)%list_elem_of_fmap. eauto.
  - rewrite check_dependencies_ok.
    2:{ rewrite (first_refusal_available _ _ _ Hav). by apply first_refusal_filter. }
    rewrite (unavailable_available st st') by done.
    rewrite unavailable_fixed. f_equal.
    apply (imported_again deps st _ Hr).
    intros name (dep & -> & Hdep)%list_elem_of_fmap.
    apply elem_of_unavailable in Hdep as [Hdep _]. eauto.
Qed.

Lemma filter_sublist_impl {A} (P Q : A -> Prop)
    `{forall x, Decision (P x)} `{forall x, Decision (Q x)} (l : list A) :
  (forall x, Q x -> P x) -> filter Q l `sublist_of` filter P l.
Proof.
  intros HQP. induction l as [|x l IH]; [done|].
  destruct (decide (Q x)) as [HQ|HQ].
  - rewrite (filter_cons_True Q) by done.
    rewrite (filter_cons_True P) by auto. by constructor.
  - rewrite (filter_cons_False Q) by done.
    destruct (decide (P x)).
    + rewrite (filter_cons_True P) by done. by constructor.
    + by rewrite (filter_cons_False P).
Qed.

(** The report is a subsequence of the declared list (order and
    repetitions kept), and an environment that resolves more names can
    only shorten it. *)
Theorem check_dependencies_monotone (deps : list string) (st1 st2 : state)
    (missing1 missing2 : list string) (st1' st2' : state) :
  check_dependencies deps st1 = (Ok missing1, st1') ->
  check_dependencies deps st2 = (Ok missing2, st2') ->
  available st1 ⊆ available st2 ->
  missing2 `sublist_of` missing1 /\ missing1 `sublist_of` deps.
Proof.
  intros H1 H2 Hsub.
  apply check_dependencies_inv in H1 as (_ & -> & _).
  apply check_dependencies_inv in H2 as (_ & -> & _).
  split.
  - apply filter_sublist_impl. set_solver.
  - apply sublist_filter.
Qed.

(** Checking a concatenation is checking its two parts one after the
    other and appending the reports; if the first part raises, the second
    is not looked at. *)
Theorem check_dependencies_app (a b : list string) (st : state) :
  check_dependencies (a ++ b) st
  = (missing_a <- check_dependencies a ;;
     missing_b <- check_dependencies b ;;
     ret (missing_a ++ missing_b)%list) st.
Proof.
  unfold check_dependencies. rewrite check_dependencies_from_app.
  unfold bind at 1 2. destruct (check_dependencies_from [] a st) as [[ma|e] st1]; [|done].
  apply check_dependencies_from_acc.
Qed.

(** The loop stops at the first empty name. When the names before it are
    checked without an exception, the call on the whole list raises the
    [ValueError] of the empty name from the state that check leaves: the
    names before have been looked up, and imported where found, although
    the call raises; the names after it are never looked at. *)
Theorem check_dependencies_stops_at_empty (before after : list string) (st : state)
    (missing : list string) (st1 : state) :
  check_dependencies before st = (Ok missing, st1) ->
  check_dependencies (before ++ "" :: after) st
  = (Raise (ValueError "Empty module name"), st1).
Proof.
  unfold check_dependencies. intros Hrun.
  rewrite check_dependencies_from_app. unfold bind at 1. rewrite Hrun.
  apply check_dependencies_from_empty.
Qed.

(** ** The quality analyzer and the deployment manager, beyond the claims *)

Lemma prefix_append needle a b :
  String.prefix needle a = true -> String.prefix needle (String.append a b) = true.
Proof.
  revert a. induction needle as [|c needle IH]; intros a.
  - intros _. by destruct (String.append a b).
  - destruct a as [|c' a]; simpl; [discriminate|].
    destruct (ascii_dec c c'); [apply IH|discriminate].
Qed.

Lemma contains_append_l needle a b :
  contains needle a = true -> contains needle (String.append a b) = true.
Proof.
  induction a as [|c a IH].
  - destruct needle; [by destruct b|done].
  - change (String.append (String c a) b) with (String c (String.append a b)).
    cbn [contains]. intros [Hp|Hc]%orb_true_iff.
    + apply (prefix_append _ _ b) in Hp.
      change (String.append (String c a) b) with (String c (String.append a b)) in Hp.
      by rewrite Hp.
    + rewrite (IH Hc). apply orb_true_r.
Qed.

Lemma contains_append_r needle a b :
  contains needle b = true -> contains needle (String.append a b) = true.
Proof.
  intros Hb. induction a as [|c a IH]; [done|].
  change (String.append (String c a) b) with (String c (String.append a b)).
  cbn [contains]. rewrite IH. apply orb_true_r.
Qed.

Lemma analyze_code_quality_markers code :
  analyze_code_quality code
  = float_of_Z (marker_score (has_doc_marker code) (has_error_handling code)
                  (has_arrow_marker code)).
Proof.
  unfold analyze_code_quality, has_doc_marker, has_error_handling, has_arrow_marker.
  destruct (contains triple_quote code), (contains "try:" code),
    (contains "except" code), (contains "->" code); vm_compute; reflexivity.
Qed.

Lemma float_of_marker_score_le (d h a d' h' a' : bool) :
  implb d d' = true -> implb h h' = true -> implb a a' = true ->
  PrimFloat.leb (float_of_Z (marker_score d h a)) (float_of_Z (marker_score d' h' a'))
  = true.
Proof.
  destruct d, d', h, h', a, a'; simpl; try discriminate; intros _ _ _;
    vm_compute; reflexivity.
Qed.

Lemma implb_true (b b' : bool) : (b = true -> b' = true) -> implb b b' = true.
Proof. destruct b, b'; simpl; auto. Qed.

(** Adding text never lowers the score: the score of a concatenation is
    at least the score of either part. *)
Theorem analyze_code_quality_append (a b : string) :
  PrimFloat.leb (analyze_code_quality a)
    (analyze_code_quality (String.append a b)) = true
  /\ PrimFloat.leb (analyze_code_quality b)
       (analyze_code_quality (String.append a b)) = true.
Proof.
  rewrite !analyze_code_quality_markers.
  unfold has_doc_marker, has_error_handling, has_arrow_marker.
  split; apply float_of_marker_score_le; apply implb_true;
    rewrite ?andb_true_iff;
    intuition auto using contains_append_l, contains_append_r.
Qed.

Lemma generate_deployment_config_inv s st cfg st' :
  generate_deployment_config s st = (Ok cfg, st') ->
  exists n ty,
    Spec.name s = Some n /\ Spec.type s = Some ty /\ st' = st
    /\ cfg = {| deployment_type := "docker";
               resource_requirements :=
                 {| cpu := "0.5"; memory := "512Mi"; storage := "1Gi" |};
               environment_variables :=
                 <["TOOL_NAME" := n]> (<["TOOL_TYPE" := ty]> {["LOG_LEVEL" := "INFO"]});
               health_check :=
                 {| enabled := true; endpoint := "/health"; interval := 30 |} |}.
Proof.
  unfold generate_deployment_config.
  destruct (Spec.name s) as [n|], (Spec.type s) as [ty|]; try discriminate.
  intros [= <- <-]. by exists n, ty.
Qed.

(** The descriptor holds exactly three environment variables, from which
    the name and the type of the specification read back; so two
    specifications get the same descriptor exactly when they agree on
    name and type. *)
Theorem generate_deployment_config_reads_back (s1 s2 : Spec.t) (st1 st2 : state)
    (c1 c2 : deployment_config_t) (st1' st2' : state) :
  generate_deployment_config s1 st1 = (Ok c1, st1') ->
  generate_deployment_config s2 st2 = (Ok c2, st2') ->
  dom (environment_variables c1) = {[ "TOOL_NAME"; "TOOL_TYPE"; "LOG_LEVEL" ]}
  /\ environment_variables c1 !! "TOOL_NAME" = Spec.name s1
  /\ environment_variables c1 !! "TOOL_TYPE" = Spec.type s1
  /\ (c1 = c2 <-> Spec.name s1 = Spec.name s2 /\ Spec.type s1 = Spec.type s2).
Proof.
  intros (n1 & ty1 & Hn1 & Ht1 & _ & ->)%generate_deployment_config_inv
         (n2 & ty2 & Hn2 & Ht2 & _ & ->)%generate_deployment_config_inv.
  cbn [environment_variables]. rewrite Hn1, Ht1, Hn2, Ht2.
  assert (forall n ty : string,
            (<["TOOL_NAME" := n]> (<["TOOL_TYPE" := ty]> {["LOG_LEVEL" := "INFO"]})
               : gmap string string) !! "TOOL_NAME" = Some n) as Hname.
  { intros. apply lookup_insert_eq. }
  assert (forall n ty : string,
            (<["TOOL_NAME" := n]> (<["TOOL_TYPE" := ty]> {["LOG_LEVEL" := "INFO"]})
               : gmap string string) !! "TOOL_TYPE" = Some ty) as Htype.
  { intros. rewrite lookup_insert_ne by done. apply lookup_insert_eq. }
  split; [|split; [apply Hname|split; [apply Htype|]]].
  - rewrite !dom_insert_L, dom_singleton_L. set_solver.
  - split.
    + intros Heq. apply (f_equal environment_variables) in Heq. cbn in Heq.
      split.
      * rewrite <- (Hname n1 ty1), <- (Hname n2 ty2). by rewrite Heq.
      * rewrite <- (Htype n1 ty1), <- (Htype n2 ty2). by rewrite Heq.
    + intros [[= ->] [= ->]]. reflexivity.
Qed.

(** ** The pipeline, beyond the claims *)

Section ForgeMore.
Variable ast_parse : string -> option exn.
Variable utcnow : nat -> string.

Local Abbreviation compile := (compile_and_validate_tool ast_parse utcnow).
Local Abbreviation compile_all := (generate_case_tools ast_parse utcnow).

Local Opaque Sha256.hexdigest analyze_code_quality String.substring
  check_dependencies_from.

(** With a text that parses and a dependency check that returns, what
    stops a compilation is a key the specification lacks: the pipeline
    raises [KeyError] for the first one in the order it reads them (the
    text, the name, the dependencies, the type, the description, the
    capabilities), and goes through when there is none. *)
Theorem compile_missing_key (s : Spec.t) (st : state) :
  (forall c, Spec.code s = Some c -> ast_parse c = None) ->
  dependencies_resolve st s ->
  match missing_key s with
  | Some key => exists st', compile s st = (Raise (KeyError key), st')
  | None => exists t st', compile s st = (Ok t, st')
  end.
Proof.
  intros Hparse Hres.
  pose proof (first_error_missing_key ast_parse st s Hparse Hres) as Herr.
  destruct (missing_key s) as [key|]; simpl in Herr.
  - destruct (compile_raises ast_parse utcnow s st _ Herr) as (st' & Hrun & _). eauto.
  - destruct (compile_ok ast_parse utcnow s st Herr) as (t & st' & Hrun & _). eauto.
Qed.

(** A compilation that raises registers nothing and does not read the
    clock. *)
Theorem compile_failure_registers_nothing (s : Spec.t) (st : state) (e : exn)
    (st' : state) :
  compile s st = (Raise e, st') ->
  generated_tools st' = generated_tools st /\ ticks st' = ticks st.
Proof. by intros (_ & ? & ?)%compile_raises_inv. Qed.

(** A compilation that goes through writes one entry, under the id of the
    tool it returns, and leaves every other entry as it was; it reads the
    clock once, for the timestamp of the tool. *)
Theorem compile_footprint (s : Spec.t) (st : state) (t : Tool.t) (st' : state) :
  compile s st = (Ok t, st') ->
  generated_tools st' !! Tool.tool_id t = Some t
  /\ (forall id, id ≠ Tool.tool_id t ->
        generated_tools st' !! id = generated_tools st !! id)
  /\ Tool.compilation_timestamp t = utcnow (ticks st)
  /\ ticks st' = S (ticks st).
Proof.
  intros (_ & A & R)%compile_inv. rewrite (reg_tools _ _ _ R).
  split; [apply lookup_insert_eq|]. split.
  - intros id Hid. by apply lookup_insert_ne.
  - split; [apply A|apply R].
Qed.

(** The registry is keyed by the text alone: a second specification with
    the text of a first one, whatever its name, takes over the entry of
    the first, and the registry does not grow. *)
Theorem compile_same_text_collides (s1 s2 : Spec.t) (st : state)
    (t1 t2 : Tool.t) (st1 st2 : state) :
  compile s1 st = (Ok t1, st1) ->
  compile s2 st1 = (Ok t2, st2) ->
  Spec.code s1 = Spec.code s2 ->
  Tool.tool_id t2 = Tool.tool_id t1
  /\ generated_tools st2 !! Tool.tool_id t1 = Some t2
  /\ Spec.name s2 = Some (Tool.name t2)
  /\ dom (generated_tools st2) = dom (generated_tools st1)
  /\ size (generated_tools st2) = size (generated_tools st1).
Proof.
  intros (_ & A1 & R1)%compile_inv (_ & A2 & R2)%compile_inv Hcode.
  destruct (asm_id _ _ _ _ A1) as [C1 I1]. destruct (asm_id _ _ _ _ A2) as [C2 I2].
  assert (Tool.tool_id t2 = Tool.tool_id t1) as Hid by (rewrite I1, I2; congruence).
  assert (generated_tools st1 !! Tool.tool_id t1 = Some t1) as Hin.
  { rewrite (reg_tools _ _ _ R1). apply lookup_insert_eq. }
  rewrite (reg_tools _ _ _ R2), Hid.
  split; [done|]. split; [apply lookup_insert_eq|].
  split; [apply A2|]. split.
  - rewrite dom_insert_L. apply elem_of_dom_2 in Hin. set_solver.
  - by erewrite map_size_insert_Some.
Qed.

(** What a compilation that goes through logs: the record of the passed
    syntax check, followed by a warning record exactly when the status
    of the tool is [warning], carrying the missing dependencies of the
    tool. *)
Theorem compile_log (s : Spec.t) (st : state) (t : Tool.t) (st' : state) :
  compile s st = (Ok t, st') ->
  exists added,
    log st' = (log st ++ InfoSyntaxPassed (Tool.name t) :: added)%list
    /\ (Tool.validation_status t = "passed" <-> added = [])
    /\ (Tool.validation_status t = "warning" <->
         added = [WarningMissingDependencies (Tool.name t)
                    (Tool.missing_dependencies t)]).
Proof.
  intros (_ & A & R)%compile_inv. eexists. split; [apply R|].
  rewrite (asm_status _ _ _ _ A).
  destruct (Tool.missing_dependencies t); simpl; repeat split; done.
Qed.

(** The syntax check comes first: for a text that does not parse, the
    parser raising a [SyntaxError], nothing is imported, registered or
    timed; the only effect is the error record in the log, for a
    specification that has a name. *)
Theorem compile_unparsable_effect (s : Spec.t) (c : string) (err : syntax_error)
    (st : state) :
  Spec.code s = Some c -> ast_parse c = Some (SyntaxError err) ->
  compile s st
  = match Spec.name s with
    | Some n => (Raise (SyntaxError err),
                 set_log (log st ++ [ErrorSyntax n (SyntaxError err)]) st)
    | None => (Raise (KeyError "name"), st)
    end.
Proof. intros Hc Hp. by rewrite (compile_unparsable _ _ _ _ _ _ Hc Hp). Qed.

(** Only a [SyntaxError] is handled at the syntax check: any other
    exception of the parser leaves the pipeline at once, before the name
    is read, and nothing is logged, imported, registered or timed. *)
Theorem compile_parser_exception (s : Spec.t) (c : string) (e : exn) (st : state) :
  Spec.code s = Some c -> ast_parse c = Some e -> is_SyntaxError e = false ->
  compile s st = (Raise e, st).
Proof. intros Hc Hp He. by rewrite (compile_unparsable _ _ _ _ _ _ Hc Hp), He. Qed.


(** ** The compilation loop, beyond the claims *)

Lemma compile_tools_acc tools : forall compiled st,
  compile_tools ast_parse utcnow compiled tools st
  = prepend compiled (compile_tools ast_parse utcnow [] tools) st.
Proof.
  induction tools as [|tool rest IH]; intros compiled st.
  - unfold prepend, bind, ret; simpl. unfold ret. by rewrite app_nil_r.
  - unfold prepend, bind. rewrite !compile_tools_turn.
    destruct (compile tool st) as [[t|e] st1], (Spec.name tool) as [n|];
      [|reflexivity|apply IH|reflexivity].
    rewrite IH, (IH ([] ++ [t])%list).
    rewrite <- prepend_prepend. reflexivity.
Qed.

Lemma compile_tools_app a b : forall compiled st,
  compile_tools ast_parse utcnow compiled (a ++ b) st
  = bind (compile_tools ast_parse utcnow compiled a)
      (fun compiled' => compile_tools ast_parse utcnow compiled' b) st.
Proof.
  induction a as [|tool rest IH]; intros compiled st; [done|].
  unfold bind. cbn [app]. rewrite !compile_tools_turn.
  destruct (compile tool st) as [[t|e] st1], (Spec.name tool) as [n|];
    [apply IH|reflexivity|apply IH|reflexivity].
Qed.

(** Compiling a batch is compiling its two parts one after the other on
    the same forge and appending the outputs; if the first part is
    aborted, the second is not started. *)
Theorem generate_case_tools_app (a b : list Spec.t) (st : state) :
  compile_all (a ++ b) st
  = (out_a <- compile_all a ;;
     out_b <- compile_all b ;;
     ret (out_a ++ out_b)%list) st.
Proof.
  unfold generate_case_tools. rewrite compile_tools_app.
  unfold bind at 1 2.
  destruct (compile_tools ast_parse utcnow [] a st) as [[out|e] st1]; [|done].
  apply compile_tools_acc.
Qed.


(** The pipeline itself writes no completion record. *)
Lemma compile_completions s st :
  completions (log (snd (compile s st))) = completions (log st).
Proof.
  unfold completions.
  destruct s as [[n|] [ty|] [c|] [deps|] [d|] [caps|] cs]; evaluate;
    try done;
    try (destruct (ast_parse c) as [e|]; [destruct (is_SyntaxError e)|]);
    try check_dependencies_in st;
    try destruct (unavailable st deps);
    simpl; rewrite ?List.filter_app; simpl; rewrite ?app_nil_r; done.
Qed.

Lemma completion_of_first_error st s :
  completion_of ast_parse utcnow st s
  = match Spec.name s with
    | Some n => Some match first_error ast_parse st s with
                     | None => InfoCompiled n
                     | Some e => ErrorFailedToCompile n e
                     end
    | None => None
    end.
Proof.
  unfold completion_of. pose proof (compile_spec ast_parse utcnow s st) as H.
  destruct (compile s st) as [[t|e] st'], (Spec.name s); cbn [fst]; try done.
  - by destruct H as (-> & _).
  - by destruct H as (-> & _).
Qed.

Lemma completion_of_available st st' s :
  available st' = available st ->
  completion_of ast_parse utcnow st' s = completion_of ast_parse utcnow st s.
Proof.
  intros Hav. by rewrite !completion_of_first_error, (first_error_available _ _ _ _ Hav).
Qed.

Lemma completions_snoc records r :
  completions (records ++ [r]) = (completions records ++ (if is_completion r then [r] else []))%list.
Proof. unfold completions. rewrite List.filter_app. simpl. by destruct (is_completion r). Qed.

Lemma compile_tools_summary tools : forall compiled st0 st out st',
  available st = available st0 ->
  compile_tools ast_parse utcnow compiled tools st = (Ok out, st') ->
  exists new,
    out = (compiled ++ new)%list
    /\ Forall (fun s => is_Some (Spec.name s)) tools
    /\ dom (generated_tools st')
       = dom (generated_tools st) ∪ list_to_set (Tool.tool_id <$> new)
    /\ completions (log st')
       = (completions (log st) ++ omap (completion_of ast_parse utcnow st0) tools)%list.
Proof.
  induction tools as [|tool rest IH]; intros compiled st0 st out st' Hav.
  - intros [= <- <-]. exists []. rewrite !app_nil_r. simpl.
    split; [done|]. split; [constructor|]. split; [set_solver|done].
  - rewrite compile_tools_turn.
    pose proof (completion_of_available st0 st tool Hav) as Hrec.
    unfold completion_of at 1 in Hrec.
    pose proof (compile_completions tool st) as Hc.
    pose proof (evolves_available _ _ (preserves_compile ast_parse utcnow tool st)) as Hav1.
    destruct (compile tool st) as [[t|e] st1] eqn:Hrun,
      (Spec.name tool) as [n|] eqn:Hn; try discriminate; intros Hrest;
      apply (IH _ st0) in Hrest as (new & -> & Hnamed & Hdom & Hlog);
      cbn [snd fst] in *;
      try (change (available st1 = available st0); congruence).
    + apply compile_inv in Hrun as (_ & _ & R).
      exists (t :: new). rewrite <- app_assoc. split; [done|].
      split; [constructor; eauto|]. split.
      * rewrite Hdom. cbn [set_log generated_tools]. rewrite (reg_tools _ _ _ R).
        rewrite dom_insert_L, fmap_cons, list_to_set_cons. set_solver.
      * rewrite Hlog. cbn [set_log log]. rewrite completions_snoc, Hc.
        cbn [omap list_omap]. rewrite <- Hrec.
        cbn [is_completion]. by rewrite <- app_assoc.
    + apply compile_raises_inv in Hrun as (_ & Hreg & _).
      exists new. split; [done|]. split; [constructor; eauto|]. split.
      * rewrite Hdom. cbn [set_log generated_tools]. by rewrite Hreg.
      * rewrite Hlog. cbn [set_log log]. rewrite completions_snoc, Hc.
        cbn [omap list_omap]. rewrite <- Hrec.
        cbn [is_completion]. by rewrite <- app_assoc.
Qed.

(** A batch that returns has added to the registry exactly the ids of the
    tools it returns: a specification that fails adds none. *)
Theorem generate_case_tools_registers (tools : list Spec.t) (st : state)
    (out : list Tool.t) (st' : state) :
  compile_all tools st = (Ok out, st') ->
  dom (generated_tools st')
  = dom (generated_tools st) ∪ list_to_set (Tool.tool_id <$> out).
Proof.
  intros (new & -> & _ & Hdom & _)%(compile_tools_summary _ _ st); done.
Qed.

(** A batch that returns has logged one completion record for each of
    its specifications, in their order: success, or the failure with the
    exception the compilation of that specification ends with. All its
    specifications carry a name. *)
Theorem generate_case_tools_accounts (tools : list Spec.t) (st : state)
    (out : list Tool.t) (st' : state) :
  compile_all tools st = (Ok out, st') ->
  Forall (fun s => is_Some (Spec.name s)) tools
  /\ completions (log st')
     = (completions (log st) ++ omap (completion_of ast_parse utcnow st) tools)%list
  /\ length (omap (completion_of ast_parse utcnow st) tools) = length tools.
Proof.
  intros (new & _ & Hnamed & _ & Hlog)%(compile_tools_summary _ _ st); [|done].
  split; [done|]. split; [done|].
  clear -Hnamed. induction Hnamed as [|s l [n Hn] _ IH]; [done|].
  cbn [omap list_omap]. unfold completion_of at 1. rewrite Hn. simpl. by rewrite IH.
Qed.

(** A specification without a name that fails takes the batch with it:
    the handler itself raises [KeyError] on the name. The specifications
    after it are not compiled, and the tools compiled before it are not
    returned, although they stay registered. *)
Theorem generate_case_tools_nameless_aborts (before after : list Spec.t)
    (tool : Spec.t) (st : state) :
  Forall (fun s => is_Some (Spec.name s)) before ->
  Spec.name tool = None ->
  exists out st1,
    compile_all before st = (Ok out, st1)
    /\ compile_all (before ++ tool :: after) st
       = (Raise (KeyError "name"), snd (compile tool st1))
    /\ dom (generated_tools st) ∪ list_to_set (Tool.tool_id <$> out)
       ⊆ dom (generated_tools (snd (compile tool st1))).
Proof.
  intros Hnamed Hn.
  destruct (compile_tools_returns ast_parse utcnow before [] st Hnamed)
    as (out & st1 & Hrun).
  exists out, st1. split; [exact Hrun|].
  split.
  - unfold generate_case_tools in *. rewrite compile_tools_app.
    unfold bind. rewrite Hrun, compile_tools_turn, Hn.
    by destruct (compile tool st1) as [[t|e] st2].
  - destruct (compile_tools_summary _ _ st _ _ _ eq_refl Hrun)
      as (new & Hout & _ & Hdom & _).
    rewrite app_nil_l in Hout. subst new. rewrite <- Hdom.
    apply (evolves_registry _ _ (preserves_compile ast_parse utcnow tool st1)).
Qed.


(** ** The registry of a forge *)

Lemma registry_ok_compile s st :
  registry_ok st -> registry_ok (snd (compile s st)).
Proof.
  intros Hok.
  destruct (compile s st) as [[t|e] st'] eqn:Hrun; cbn [snd].
  - apply compile_inv in Hrun as (_ & A & R).
    unfold registry_ok. rewrite (reg_tools _ _ _ R).
    apply map_Forall_insert_2; [|exact Hok].
    destruct (asm_id _ _ _ _ A) as [_ Hid].
    split; [done|exact Hid|apply A|apply A|].
    rewrite (asm_missing _ _ _ _ A). apply sublist_filter.
  - apply compile_raises_inv in Hrun as (_ & Hreg & _).
    unfold registry_ok. by rewrite Hreg.
Qed.

Lemma registry_ok_compile_tools tools : forall compiled st,
  registry_ok st ->
  registry_ok (snd (compile_tools ast_parse utcnow compiled tools st)).
Proof.
  induction tools as [|tool rest IH]; intros compiled st Hok; [done|].
  rewrite compile_tools_turn.
  pose proof (registry_ok_compile tool st Hok) as Hstep.
  destruct (compile tool st) as [[t|e] st1], (Spec.name tool) as [n|];
    [apply IH|exact Hstep|apply IH|exact Hstep]; exact Hstep.
Qed.

(** The registry of a new forge is empty, and whatever operations are
    performed on the forge, every entry of its registry is filed under
    its own id, which is the id of its text, and carries the score of
    that text and the status that goes with its missing dependencies. *)
Theorem registry_well_formed (ops : list operation) (st : state) :
  generated_tools (__init__ st) = ∅
  /\ registry_ok (run ast_parse utcnow ops (__init__ st)).
Proof.
  split; [done|].
  assert (registry_ok (__init__ st)) as Hinit by apply map_Forall_empty.
  revert Hinit. generalize (__init__ st). clear st.
  induction ops as [|o ops IH]; intros st Hok; [done|].
  cbn [run fold_left]. apply IH. destruct o; cbn [perform].
  - by apply registry_ok_compile.
  - by apply registry_ok_compile_tools.
Qed.


(** Whatever operations are performed on a forge, what the environment
    resolves does not change: the module index is untouched, modules are
    loaded and never unloaded, all of them resolvable before; and the log
    is only ever extended. *)
Theorem operations_keep_environment (ops : list operation) (st : state) :
  module_index (run ast_parse utcnow ops st) = module_index st
  /\ available (run ast_parse utcnow ops st) = available st
  /\ sys_modules st ⊆ sys_modules (run ast_parse utcnow ops st)
  /\ sys_modules (run ast_parse utcnow ops st) ⊆ available st
  /\ log st `prefix_of` log (run ast_parse utcnow ops st).
Proof.
  destruct (evolves_run ast_parse utcnow ops st) as [Hi Ha Hl _ Hlog].
  repeat split; try done.
  rewrite <- Ha. unfold available. set_solver.
Qed.

(** The result of compiling a specification does not drift while the
    forge is used: compiled again after any operations, it goes through
    again and gives a tool of the same content, the timestamp apart. *)
Theorem compile_stable (s : Spec.t) (st : state) (t1 : Tool.t) (st1 : state)
    (ops : list operation) :
  compile s st = (Ok t1, st1) ->
  exists t2 st2,
    compile s (run ast_parse utcnow ops st1) = (Ok t2, st2)
    /\ same_content t1 t2
    /\ generated_tools st2 !! Tool.tool_id t1 = Some t2.
Proof.
  intros (Hc & A1 & R1)%compile_inv.
  assert (available (run ast_parse utcnow ops st1) = available st) as Hav.
  { rewrite (evolves_available _ _ (evolves_run ast_parse utcnow ops st1)).
    by eapply registered_available. }
  rewrite <- (first_error_available _ _ _ _ Hav) in Hc.
  destruct (compile_ok ast_parse utcnow s (run ast_parse utcnow ops st1) Hc)
    as (t2 & st2 & H2 & A2 & R2).
  assert (same_content t1 t2) as Hsame
    by (by eapply assembled_agree; [|exact A1|exact A2]).
  exists t2, st2. split; [done|]. split; [done|].
  rewrite (reg_tools _ _ _ R2).
  destruct Hsame as (-> & _). apply lookup_insert_eq.
Qed.

End ForgeMore.

(** ** The further properties on the runnable instance *)

Lemma demo_check_ok :
  exists missing st',
    check_dependencies demo_dependencies (fresh installed) = (Ok missing, st').
Proof. eexists _, _. vm_compute. reflexivity. Defined.

Lemma demo_check_bare :
  exists missing st',
    check_dependencies demo_dependencies (fresh []) = (Ok missing, st').
Proof. eexists _, _. vm_compute. reflexivity. Defined.

Lemma demo_broken :
  exists e st',
    compile_and_validate_tool paren_parse counting_clock broken_spec (fresh installed)
    = (Raise e, st').
Proof. eexists _, _. vm_compute. reflexivity. Defined.

Lemma demo_batch_ok :
  exists out st',
    generate_case_tools paren_parse counting_clock demo_batch (fresh installed)
    = (Ok out, st').
Proof. eexists _, _. vm_compute. reflexivity. Defined.

Lemma check_dependencies_loads_witness :
  exists missing st',
    check_dependencies demo_dependencies (fresh installed) = (Ok missing, st')
    /\ ("python-dateutil" ∈ missing <-> normalize "python-dateutil" ∉ sys_modules st').
Proof.
  destruct demo_check_ok as (missing & st' & H). exists missing, st'.
  split; [exact H|]. apply (check_dependencies_loads _ _ _ _ H).
  apply (bool_decide_unpack _). vm_compute. exact I.
Defined.

Lemma check_dependencies_again_witness :
  exists missing st',
    check_dependencies demo_dependencies (fresh installed) = (Ok missing, st')
    /\ check_dependencies demo_dependencies st' = (Ok missing, st')
    /\ check_dependencies missing st' = (Ok missing, st').
Proof.
  destruct demo_check_ok as (missing & st' & H). exists missing, st'.
  split; [exact H|]. exact (check_dependencies_again _ _ _ _ H).
Defined.

Lemma check_dependencies_monotone_witness :
  exists bare full,
    bare = demo_dependencies
    /\ full `sublist_of` bare /\ bare `sublist_of` demo_dependencies.
Proof.
  destruct demo_check_bare as (bare & st1' & H1).
  destruct demo_check_ok as (full & st2' & H2).
  exists bare, full. split.
  - revert H1. vm_compute. intros [= <- _]. reflexivity.
  - apply (check_dependencies_monotone _ _ _ _ _ _ _ H1 H2).
    apply (bool_decide_unpack _). vm_compute. exact I.
Defined.

Lemma check_dependencies_stops_at_empty_witness :
  exists missing st1,
    check_dependencies ["json"; "nonexistent-pkg-xyz"] packaged = (Ok missing, st1)
    /\ check_dependencies (["json"; "nonexistent-pkg-xyz"] ++ "" :: ["pandas"]) packaged
       = (Raise (ValueError "Empty module name"), st1)
    /\ "pandas" ∉ sys_modules st1.
Proof.
  eexists _, _. split; [vm_compute; reflexivity|]. split.
  - eapply check_dependencies_stops_at_empty. vm_compute. reflexivity.
  - apply (bool_decide_unpack _). vm_compute. exact I.
Defined.

Lemma generate_deployment_config_reads_back_witness :
  exists c1 c2,
    generate_deployment_config timeline_spec (fresh installed) = (Ok c1, fresh installed)
    /\ generate_deployment_config evidence_spec (fresh []) = (Ok c2, fresh [])
    /\ environment_variables c1 !! "TOOL_NAME" = Some "timeline_reconstructor_1FDV"
    /\ c1 <> c2.
Proof.
  eexists _, _. split; [reflexivity|]. split; [reflexivity|].
  destruct (generate_deployment_config_reads_back timeline_spec evidence_spec
              (fresh installed) (fresh []) _ _ _ _ eq_refl eq_refl)
    as (_ & Hn & _ & Hiff).
  split; [exact Hn|]. intros Heq. apply Hiff in Heq as [Heq _]. discriminate Heq.
Defined.

Lemma compile_missing_key_witness :
  exists st',
    compile_and_validate_tool paren_parse counting_clock nameless_spec (fresh installed)
    = (Raise (KeyError "code"), st').
Proof.
  apply (compile_missing_key paren_parse counting_clock nameless_spec (fresh installed)).
  - intros c Hc. discriminate Hc.
  - intros deps [= <-]. eexists _, _. vm_compute. reflexivity.
Defined.

Lemma compile_failure_registers_nothing_witness :
  exists e st',
    compile_and_validate_tool paren_parse counting_clock broken_spec (fresh installed)
    = (Raise e, st')
    /\ generated_tools st' = ∅ /\ ticks st' = 0%nat.
Proof.
  destruct demo_broken as (e & st' & H). exists e, st'. split; [exact H|].
  exact (compile_failure_registers_nothing paren_parse counting_clock _ _ _ _ H).
Defined.

Lemma compile_footprint_witness :
  exists t st',
    demo_compile = (Ok t, st')
    /\ generated_tools st' !! Tool.tool_id t = Some t
    /\ Tool.compilation_timestamp t = counting_clock 0
    /\ ticks st' = 1%nat.
Proof.
  destruct demo_compile_ok as (t & st' & H).
  destruct (compile_footprint paren_parse counting_clock _ _ _ _ H)
    as (H1 & _ & H3 & H4).
  exists t, st'. split; [exact H|]. split; [exact H1|]. split; [exact H3|exact H4].
Defined.

Lemma compile_same_text_collides_witness :
  exists t1 st1 t2 st2,
    demo_compile = (Ok t1, st1)
    /\ compile_and_validate_tool paren_parse counting_clock renamed_spec st1
       = (Ok t2, st2)
    /\ generated_tools st2 !! Tool.tool_id t1 = Some t2
    /\ Tool.name t2 = "timeline_copy_1FDV"
    /\ size (generated_tools st2) = size (generated_tools st1).
Proof.
  destruct demo_compile_ok as (t1 & st1 & H1).
  destruct (compile_ok paren_parse counting_clock renamed_spec st1)
    as (t2 & st2 & H2 & _); [vm_compute; reflexivity|].
  destruct (compile_same_text_collides paren_parse counting_clock _ _ _ _ _ _ _
              H1 H2 eq_refl) as (_ & Hin & Hname & _ & Hsize).
  exists t1, st1, t2, st2. split; [exact H1|]. split; [exact H2|].
  split; [exact Hin|]. split; [|exact Hsize].
  injection Hname as Hname. symmetry. exact Hname.
Defined.

Lemma compile_log_witness :
  exists t st' added,
    demo_compile = (Ok t, st')
    /\ log st' = (log (fresh installed) ++ InfoSyntaxPassed (Tool.name t) :: added)%list
    /\ (Tool.validation_status t = "warning" <->
        added = [WarningMissingDependencies (Tool.name t)
                   (Tool.missing_dependencies t)]).
Proof.
  destruct demo_compile_ok as (t & st' & H).
  destruct (compile_log paren_parse counting_clock _ _ _ _ H)
    as (added & Hlog & _ & Hw).
  exists t, st', added. split; [exact H|]. split; [exact Hlog|exact Hw].
Defined.

Lemma compile_unparsable_effect_witness :
  compile_and_validate_tool paren_parse counting_clock broken_spec (fresh installed)
  = (Raise (SyntaxError {| lineno := 1; offset := 12; msg := "'(' was never closed" |}),
     set_log [ErrorSyntax "compliance_monitor_1FDV"
                (SyntaxError {| lineno := 1; offset := 12;
                                msg := "'(' was never closed" |})]
       (fresh installed)).
Proof.
  apply (compile_unparsable_effect paren_parse counting_clock broken_spec
           "def check(:"); vm_compute; reflexivity.
Defined.

Lemma compile_parser_exception_witness :
  compile_and_validate_tool paren_parse counting_clock null_byte_spec (fresh installed)
  = (Raise (ValueError "source code string cannot contain null bytes"), fresh installed).
Proof.
  eapply (compile_parser_exception paren_parse counting_clock null_byte_spec).
  - reflexivity.
  - vm_compute. reflexivity.
  - reflexivity.
Defined.


Lemma generate_case_tools_registers_witness :
  exists out st',
    generate_case_tools paren_parse counting_clock demo_batch (fresh installed)
    = (Ok out, st')
    /\ dom (generated_tools st') = list_to_set (Tool.tool_id <$> out).
Proof.
  destruct demo_batch_ok as (out & st' & H). exists out, st'. split; [exact H|].
  rewrite (generate_case_tools_registers paren_parse counting_clock _ _ _ _ H).
  cbn [fresh generated_tools]. rewrite dom_empty_L. apply (left_id_L ∅ (∪)).
Defined.

Lemma generate_case_tools_accounts_witness :
  exists out st',
    generate_case_tools paren_parse counting_clock demo_batch (fresh installed)
    = (Ok out, st')
    /\ completions (log st')
       = [InfoCompiled "timeline_reconstructor_1FDV";
          ErrorFailedToCompile "compliance_monitor_1FDV"
            (SyntaxError {| lineno := 1; offset := 12;
                            msg := "'(' was never closed" |});
          InfoCompiled "evidence_analyzer_1FDV"].
Proof.
  destruct demo_batch_ok as (out & st' & H). exists out, st'. split; [exact H|].
  destruct (generate_case_tools_accounts paren_parse counting_clock _ _ _ _ H)
    as (_ & Hlog & _).
  rewrite Hlog. vm_compute. reflexivity.
Defined.

Lemma generate_case_tools_nameless_aborts_witness :
  exists out st1,
    generate_case_tools paren_parse counting_clock [evidence_spec] (fresh installed)
    = (Ok out, st1)
    /\ generate_case_tools paren_parse counting_clock
         ([evidence_spec] ++ nameless_spec :: [timeline_spec]) (fresh installed)
       = (Raise (KeyError "name"),
          snd (compile_and_validate_tool paren_parse counting_clock nameless_spec st1)).
Proof.
  destruct (generate_case_tools_nameless_aborts paren_parse counting_clock
              [evidence_spec] [timeline_spec] nameless_spec (fresh installed))
    as (out & st1 & H1 & H2 & _).
  - repeat constructor. eexists. reflexivity.
  - reflexivity.
  - exists out, st1. split; [exact H1|exact H2].
Defined.

Lemma compile_stable_witness :
  exists t1 st1 t2 st2,
    demo_compile = (Ok t1, st1)
    /\ compile_and_validate_tool paren_parse counting_clock timeline_spec
         (run paren_parse counting_clock
            [GenerateCaseTools demo_batch; CompileAndValidateTool broken_spec] st1)
       = (Ok t2, st2)
    /\ same_content t1 t2.
Proof.
  destruct demo_compile_ok as (t1 & st1 & H1).
  destruct (compile_stable paren_parse counting_clock _ _ _ _
              [GenerateCaseTools demo_batch; CompileAndValidateTool broken_spec] H1)
    as (t2 & st2 & H2 & Hsame & _).
  exists t1, st1, t2, st2. split; [exact H1|]. split; [exact H2|exact Hsame].
Defined.

